(** * moto KMS emulation: [moto/kms/responses.py]

    A shallow embedding of the request handlers of [KmsResponse] and of the
    three module-level helpers [_assert_valid_key_id], [_assert_default_policy]
    and [_parse_key_id], together with the properties the specification
    states about them.

    Layout:
    - [Py]          the Python string operations the handlers use;
    - [Re]          regular expressions with the semantics of [re.match];
    - JSON values, exceptions and the handler monad;
    - [Backend]     the interface of [kms_backends[region]]
                    ([moto/kms/models.py]);
    - [KmsResponse] the handlers, for an arbitrary backend;
    - [Models]      a backend modelled from the specification, [Framed] an
                    envelope format for it, [Example] a scenario;
    - the properties. *)

From Stdlib Require Import ZArith Ascii String List Bool Lia.
From Stdlib Require Import Init.Byte.
From stdpp Require Import base decidable option list gmap strings fin_maps.

Local Open Scope Z_scope.
Local Open Scope list_scope.

#[local] Set Warnings "-register-all".

(** Python [bytes] values. *)
Abbreviation bytes := (list Byte.byte).

(* ===================================================================== *)
(** ** Python string operations *)
(* ===================================================================== *)

Module Py.

(** [s.startswith(p)] *)
Definition startswith (s p : string) : bool := String.prefix p s.

(** [sub in s] for strings. *)
Fixpoint contains (sub s : string) : bool :=
  String.prefix sub s ||
  match s with
  | EmptyString => false
  | String _ s' => contains sub s'
  end.

(** [x in l] for a list of strings. *)
Definition in_list (x : string) (l : list string) : bool :=
  existsb (String.eqb x) l.

(** [s.split(sep)] for a one-character separator: the fields between the
    occurrences of [sep]; never empty. *)
Fixpoint split (sep : ascii) (s : string) : list string :=
  match s with
  | EmptyString => [EmptyString]
  | String c s' =>
      if Ascii.eqb c sep then EmptyString :: split sep s'
      else match split sep s' with
           | h :: t => String c h :: t
           | [] => [String c EmptyString]
           end
  end.

(** [l[-1]] on a list of strings that is known not to be empty. *)
Definition last (l : list string) : string := List.last l EmptyString.

(** [str(b)] / [s.encode()] between text and byte strings (8-bit clean). *)
Definition encode (s : string) : bytes := String.list_byte_of_string s.
Definition decode (b : bytes) : string := String.string_of_list_byte b.

End Py.

(* ===================================================================== *)
(** ** Regular expressions, as [re.match] applies them *)
(* ===================================================================== *)

Module Re.

Inductive regex : Type :=
| Void
| Eps
| Class (p : ascii -> bool)
| Cat (r1 r2 : regex)
| Alt (r1 r2 : regex)
| Star (r : regex).

Fixpoint nullable (r : regex) : bool :=
  match r with
  | Void => false
  | Eps => true
  | Class _ => false
  | Cat r1 r2 => nullable r1 && nullable r2
  | Alt r1 r2 => nullable r1 || nullable r2
  | Star _ => true
  end.

Fixpoint deriv (c : ascii) (r : regex) : regex :=
  match r with
  | Void => Void
  | Eps => Void
  | Class p => if p c then Eps else Void
  | Cat r1 r2 =>
      if nullable r1 then Alt (Cat (deriv c r1) r2) (deriv c r2)
      else Cat (deriv c r1) r2
  | Alt r1 r2 => Alt (deriv c r1) (deriv c r2)
  | Star r' => Cat (deriv c r') (Star r')
  end.

(** The whole of [s] is a word of [r]. *)
Fixpoint fullmatch (r : regex) (s : string) : bool :=
  match s with
  | EmptyString => nullable r
  | String c s' => fullmatch (deriv c r) s'
  end.

(** [r+] and [r{n}] *)
Definition plus (r : regex) : regex := Cat r (Star r).
Fixpoint rep (n : nat) (r : regex) : regex :=
  match n with
  | O => Eps
  | S n' => Cat r (rep n' r)
  end.

(** [s] without its last character, when that character is a newline. *)
Fixpoint chomp (s : string) : option string :=
  match s with
  | EmptyString => None
  | String c EmptyString => if Ascii.eqb c "010"%char then Some EmptyString else None
  | String c s' => option_map (String c) (chomp s')
  end.

(** [re.match('^' r '$', s) is not None].  Without [re.MULTILINE] the
    anchor [$] holds at the end of the string and also just before a
    newline that is the last character of the string. *)
Definition match_anchored (r : regex) (s : string) : bool :=
  fullmatch r s ||
  match chomp s with
  | Some s' => fullmatch r s'
  | None => false
  end.

(** Character ranges and [re.IGNORECASE]. *)
Definition between (lo hi c : ascii) : bool :=
  ((N_of_ascii lo <=? N_of_ascii c) && (N_of_ascii c <=? N_of_ascii hi))%N.

Definition upper (c : ascii) : ascii :=
  if between "a" "z" c then ascii_of_N (N_of_ascii c - 32) else c.
Definition lower (c : ascii) : ascii :=
  if between "A" "Z" c then ascii_of_N (N_of_ascii c + 32) else c.

Definition ignorecase (p : ascii -> bool) (c : ascii) : bool :=
  p c || p (upper c) || p (lower c).

Definition lit (x : ascii) : regex := Class (Ascii.eqb x).

End Re.

(* ===================================================================== *)
(** ** JSON values, replies and exceptions *)
(* ===================================================================== *)

(** The argument of [json.dumps].  [JB64 b] stands for the text
    [base64.b64encode(b)]: the handlers receive and return byte strings
    base64-coded, and the embedding keeps the byte string itself. *)
Inductive json : Type :=
| JNull
| JBool (b : bool)
| JStr (s : string)
| JB64 (b : bytes)
| JArr (l : list json)
| JObj (l : list (string * json)).

(** [d[k]] on a JSON object. *)
Definition json_get (k : string) (j : json) : option json :=
  match j with
  | JObj l => snd <$> List.find (fun kv => String.eqb k (fst kv)) l
  | _ => None
  end.

(** What a handler returns: a body (status 200), or a body with headers
    whose ['status'] entry has been set. *)
Inductive reply : Type :=
| Body (j : json)
| BodyWithStatus (body : string) (status : Z).

(** The [body] dictionary given to the boto exceptions. *)
Record err_body : Type := ErrBody { message : option string; __type : string }.

Inductive exn : Type :=
| JSONResponseError (status : Z) (reason : string) (body : err_body)
| AlreadyExistsException (status : Z) (reason : string) (body : err_body)
| NotFoundException (status : Z) (reason : string) (body : err_body)
| KeyError.

(** The failure kinds of the specification. *)
Inductive failure : Type :=
| NotFound | AlreadyExists | InvalidArgument | NotAuthorized | InvalidCiphertext.

Definition kind_of_type (t : string) : option failure :=
  if String.eqb t "NotFoundException" then Some NotFound
  else if String.eqb t "AlreadyExistsException" then Some AlreadyExists
  else if String.eqb t "ValidationException" then Some InvalidArgument
  else if String.eqb t "NotAuthorizedException" then Some NotAuthorized
  else if String.eqb t "InvalidCiphertextException" then Some InvalidCiphertext
  else None.

(** The failure kind an exception is serialised as; a bare [KeyError] has
    none. *)
Definition kind_of (e : exn) : option failure :=
  match e with
  | JSONResponseError _ _ b
  | AlreadyExistsException _ _ b
  | NotFoundException _ _ b => kind_of_type (__type b)
  | KeyError => None
  end.

(* ===================================================================== *)
(** ** The handler monad: backend state and exceptions *)
(* ===================================================================== *)

Inductive outcome (A : Type) : Type :=
| Return (a : A)
| Raise (e : exn).
Arguments Return {A} a.
Arguments Raise {A} e.

Definition M (St A : Type) : Type := St -> outcome A * St.

Definition ret {St A} (a : A) : M St A := fun s => (Return a, s).

Definition raise {St A} (e : exn) : M St A := fun s => (Raise e, s).

Definition bind {St A B} (m : M St A) (k : A -> M St B) : M St B :=
  fun s =>
    match m s with
    | (Return a, s') => k a s'
    | (Raise e, s') => (Raise e, s')
    end.

Declare Scope handler_scope.
Delimit Scope handler_scope with handler.
Notation "x <~ m ;; k" := (bind m (fun x => k))
  (at level 100, m at level 99, k at level 200, right associativity,
   only parsing) : handler_scope.
Notation "m ;; k" := (bind m (fun _ => k))
  (at level 100, k at level 200, right associativity, only parsing)
  : handler_scope.

(** [if c: raise e] *)
Definition raise_if {St} (c : bool) (e : exn) : M St unit :=
  if c then raise e else ret tt.

(** A backend method that reads the state. *)
Definition query {St A} (f : St -> A) : M St A := fun s => (Return (f s), s).

(** A backend method that reads the state and raises [KeyError] when the
    entry it looks up is absent. *)
Definition lookup_or_KeyError {St A} (f : St -> option A) : M St A :=
  fun s => match f s with
           | Some a => (Return a, s)
           | None => (Raise KeyError, s)
           end.

(** A backend method that updates the state. *)
Definition update {St} (f : St -> St) : M St unit := fun s => (Return tt, f s).

(** A backend method that updates the state and returns a value. *)
Definition update_with {St A} (f : St -> A * St) : M St A :=
  fun s => let '(a, s') := f s in (Return a, s').

(** A backend method that updates the state, or raises [KeyError] and
    leaves it as it was. *)
Definition update_or_KeyError {St} (f : St -> option St) : M St unit :=
  fun s => match f s with
           | Some s' => (Return tt, s')
           | None => (Raise KeyError, s)
           end.

(** [try: a = m except KeyError: h] followed by [k a], where the handler
    [h] leaves the function (every [except] clause of the module returns or
    raises). *)
Definition try_except_KeyError {St A R}
    (m : M St A) (h : M St R) (k : A -> M St R) : M St R :=
  fun s =>
    match m s with
    | (Return a, s') => k a s'
    | (Raise KeyError, s') => h s'
    | (Raise e, s') => (Raise e, s')
    end.

(* ===================================================================== *)
(** ** The backend interface *)
(* ===================================================================== *)

(** An encryption context: the JSON object of the request, or [None] when
    the request has no ['EncryptionContext'] entry. *)
Abbreviation context := (option (gmap string string)).

Module Backend.

(** Modelled from the spec: the methods of [kms_backends[region]]
    ([moto/kms/models.py], not part of the sources at hand) that the
    handlers call, with the signatures of sections 4.1 to 4.4.  [St] is the
    state of the backend object.  A lookup ([describe_key], [alias_exists],
    [get_all_aliases], ...) reads the state; a method that "fails with
    NotFound if absent" is a partial function, [None] standing for the
    [KeyError] that the handlers catch, and it fails before it updates
    anything ("no partial mutation on failure", section 7). *)
Record t : Type := Make {
  St : Type;
  Key : Type;
  id : Key -> string;
  arn : Key -> string;
  to_dict : Key -> json;
  create_key :
    option string -> option string -> option string -> string -> St -> Key * St;
  describe_key : string -> St -> option Key;
  list_keys : St -> list Key;
  alias_exists : string -> St -> bool;
  add_alias : string -> string -> St -> St;
  delete_alias : string -> St -> St;
  get_all_aliases : St -> list (string * list string);
  enable_key_rotation : string -> St -> option St;
  disable_key_rotation : string -> St -> option St;
  get_key_rotation_status : string -> St -> option bool;
  put_key_policy : string -> option string -> St -> option St;
  get_key_policy : string -> St -> option (option string);
  encrypt : string -> bytes -> context -> St -> string * bytes;
  decrypt : bytes -> context -> St -> option (string * bytes);
  generate_data_key :
    string -> option string -> option Z -> context -> St ->
    (bytes * string * bytes) * St;
}.

(** The backend [B] with the key identifier that [generate_data_key]
    returns replaced by its image under [f]. *)
Definition with_returned_key_id (f : string -> string) (B : t) : t :=
  Make (St B) (Key B) (id B) (arn B) (to_dict B)
    (create_key B) (describe_key B) (list_keys B)
    (alias_exists B) (add_alias B) (delete_alias B) (get_all_aliases B)
    (enable_key_rotation B) (disable_key_rotation B)
    (get_key_rotation_status B) (put_key_policy B) (get_key_policy B)
    (encrypt B) (decrypt B)
    (fun key_id key_spec number_of_bytes c s =>
       let '((plaintext, returned_key_id, ciphertext), s') :=
         generate_data_key B key_id key_spec number_of_bytes c s in
       ((plaintext, f returned_key_id, ciphertext), s')).

End Backend.

(* ===================================================================== *)
(** ** [moto/kms/responses.py] *)
(* ===================================================================== *)

Definition reserved_aliases : list string :=
  [ "alias/aws/ebs";
    "alias/aws/s3";
    "alias/aws/redshift";
    "alias/aws/rds" ].

(** [[a-zA-Z0-9:/_-]] *)
Definition alias_name_class (c : ascii) : bool :=
  Re.between "a" "z" c || Re.between "A" "Z" c || Re.between "0" "9" c ||
  Ascii.eqb c ":" || Ascii.eqb c "/" || Ascii.eqb c "_" || Ascii.eqb c "-".

(** [r'^[a-zA-Z0-9:/_-]+$'], between the anchors. *)
Definition alias_name_pattern : Re.regex := Re.plus (Re.Class alias_name_class).

(** [[A-F0-9]] under [re.IGNORECASE] *)
Definition hex_class : ascii -> bool :=
  Re.ignorecase (fun c => Re.between "A" "F" c || Re.between "0" "9" c).

(** [r'^[A-F0-9]{8}-[A-F0-9]{4}-[A-F0-9]{4}-[A-F0-9]{4}-[A-F0-9]{12}$'],
    between the anchors. *)
Definition key_id_pattern : Re.regex :=
  Re.Cat (Re.rep 8 (Re.Class hex_class))
    (Re.Cat (Re.lit "-")
       (Re.Cat (Re.rep 4 (Re.Class hex_class))
          (Re.Cat (Re.lit "-")
             (Re.Cat (Re.rep 4 (Re.Class hex_class))
                (Re.Cat (Re.lit "-")
                   (Re.Cat (Re.rep 4 (Re.Class hex_class))
                      (Re.Cat (Re.lit "-")
                         (Re.rep 12 (Re.Class hex_class))))))))).

(** The test of [_assert_valid_key_id]. *)
Definition valid_key_id (key_id : string) : bool :=
  Re.match_anchored key_id_pattern key_id.

Definition invalid_key_id_error : exn :=
  JSONResponseError 404 "Not Found"
    (ErrBody (Some " Invalid keyId") "NotFoundException").

Definition no_such_policy_error : exn :=
  JSONResponseError 404 "Not Found"
    (ErrBody (Some "No such policy exists") "NotFoundException").

Definition _assert_valid_key_id {St} (key_id : string) : M St unit :=
  raise_if (negb (valid_key_id key_id)) invalid_key_id_error.

Definition _assert_default_policy {St} (policy_name : option string) : M St unit :=
  raise_if (negb (bool_decide (policy_name = Some "default")))
    no_such_policy_error.

Definition _parse_key_id (key_id : string) : string :=
  if Py.contains "arn" key_id then
    let id_str := Py.last (Py.split ":" key_id) in
    Py.last (Py.split "/" id_str)
  else key_id.

Module KmsResponse.

(** The actions of the service with their decoded parameters; the router
  calls the method named after the action. *)
Inductive request : Type :=
| CreateKey (policy key_usage description : option string)
| DescribeKey (key_id : string)
| ListKeys
| CreateAlias (alias_name target_key_id : string)
| DeleteAlias (alias_name : string)
| ListAliases
| EnableKeyRotation (key_id : string)
| DisableKeyRotation (key_id : string)
| GetKeyRotationStatus (key_id : string)
| PutKeyPolicy (key_id : string) (policy_name policy : option string)
| GetKeyPolicy (key_id : string) (policy_name : option string)
| ListKeyPolicies (key_id : string)
| Encrypt (key_id : string) (plaintext : bytes) (encryption_context : context)
| Decrypt (ciphertext : bytes) (encryption_context : context)
| GenerateDataKey (key_id : string) (key_spec : option string)
  (number_of_bytes : option Z) (encryption_context : context).

Section Handlers.

(** [self.kms_backend] and [self.region].  A handler takes the entries of
    [self.parameters] that it reads as arguments: an entry read with
    [.get] that the handler can do without is an [option]. *)
Variable B : Backend.t.
Variable region : string.

Local Open Scope handler_scope.
Local Abbreviation H := (M (Backend.St B) reply).

Definition key_does_not_exist_error (key_id : string) : exn :=
  JSONResponseError 404 "Not Found"
    (ErrBody
       (Some ("Key 'arn:aws:kms:" +:+ region +:+ ":012345678912:key/"
              +:+ key_id +:+ "' does not exist"))
       "NotFoundException").

Definition create_key (policy key_usage description : option string) : H :=
  key <~ update_with (Backend.create_key B policy key_usage description region) ;;
  ret (Body (Backend.to_dict B key)).

Definition describe_key (key_id : string) : H :=
  try_except_KeyError
    (lookup_or_KeyError (Backend.describe_key B key_id))
    (ret (BodyWithStatus "{}" 404))
    (fun key => ret (Body (Backend.to_dict B key))).

Definition list_keys : H :=
  keys <~ query (Backend.list_keys B) ;;
  ret (Body (JObj
    [ ("Keys", JArr (map (fun key =>
                  JObj [ ("KeyArn", JStr (Backend.arn B key));
                         ("KeyId", JStr (Backend.id B key)) ]) keys));
      ("NextMarker", JNull);
      ("Truncated", JBool false) ])).

Definition create_alias (alias_name target_key_id : string) : H :=
  raise_if (negb (Py.startswith alias_name "alias/"))
    (JSONResponseError 400 "Bad Request"
       (ErrBody (Some "Invalid identifier") "ValidationException")) ;;
  raise_if (Py.in_list alias_name reserved_aliases)
    (JSONResponseError 400 "Bad Request"
       (ErrBody None "NotAuthorizedException")) ;;
  raise_if (Py.contains ":" alias_name)
    (JSONResponseError 400 "Bad Request"
       (ErrBody
          (Some (alias_name +:+ " contains invalid characters for an alias"))
          "ValidationException")) ;;
  raise_if (negb (Re.match_anchored alias_name_pattern alias_name))
    (JSONResponseError 400 "Bad Request"
       (ErrBody
          (Some ("1 validation error detected: Value '" +:+ alias_name
                 +:+ "' at 'aliasName' failed to satisfy constraint: Member must satisfy regular expression pattern: ^[a-zA-Z0-9:/_-]+$"))
          "ValidationException")) ;;
  target_is_alias <~ query (Backend.alias_exists B target_key_id) ;;
  raise_if target_is_alias
    (JSONResponseError 400 "Bad Request"
       (ErrBody (Some "Aliases must refer to keys. Not aliases")
          "ValidationException")) ;;
  name_taken <~ query (Backend.alias_exists B alias_name) ;;
  raise_if name_taken
    (AlreadyExistsException 400 "Bad Request"
       (ErrBody
          (Some ("An alias with the name arn:aws:kms:" +:+ region
                 +:+ ":012345678912:" +:+ alias_name +:+ " already exists"))
          "AlreadyExistsException")) ;;
  update (Backend.add_alias B target_key_id alias_name) ;;
  ret (Body JNull).

Definition delete_alias (alias_name : string) : H :=
  raise_if (negb (Py.startswith alias_name "alias/"))
    (JSONResponseError 400 "Bad Request"
       (ErrBody (Some "Invalid identifier") "ValidationException")) ;;
  registered <~ query (Backend.alias_exists B alias_name) ;;
  raise_if (negb registered)
    (NotFoundException 400 "Bad Request"
       (ErrBody
          (Some ("Alias arn:aws:kms:" +:+ region +:+ ":012345678912:"
                 +:+ alias_name +:+ " is not found."))
          "NotFoundException")) ;;
  update (Backend.delete_alias B alias_name) ;;
  ret (Body JNull).

Definition alias_arn (alias_name : string) : string :=
  "arn:aws:kms:" +:+ region +:+ ":012345678912:" +:+ alias_name.

Definition list_aliases : H :=
  let response_aliases :=
    map (fun reserved_alias =>
           JObj [ ("AliasArn", JStr (alias_arn reserved_alias));
                  ("AliasName", JStr reserved_alias) ])
        reserved_aliases in
  backend_aliases <~ query (Backend.get_all_aliases B) ;;
  let response_aliases :=
    response_aliases ++
    flat_map (fun '(target_key_id, aliases) =>
                map (fun alias_name =>
                       JObj [ ("AliasArn", JStr (alias_arn alias_name));
                              ("AliasName", JStr alias_name);
                              ("TargetKeyId", JStr target_key_id) ])
                    aliases)
             backend_aliases in
  ret (Body (JObj [ ("Truncated", JBool false);
                    ("Aliases", JArr response_aliases) ])).

Definition enable_key_rotation (key_id : string) : H :=
  _assert_valid_key_id key_id ;;
  try_except_KeyError
    (update_or_KeyError (Backend.enable_key_rotation B key_id))
    (raise (key_does_not_exist_error key_id))
    (fun _ => ret (Body JNull)).

Definition disable_key_rotation (key_id : string) : H :=
  _assert_valid_key_id key_id ;;
  try_except_KeyError
    (update_or_KeyError (Backend.disable_key_rotation B key_id))
    (raise (key_does_not_exist_error key_id))
    (fun _ => ret (Body JNull)).

Definition get_key_rotation_status (key_id : string) : H :=
  _assert_valid_key_id key_id ;;
  try_except_KeyError
    (lookup_or_KeyError (Backend.get_key_rotation_status B key_id))
    (raise (key_does_not_exist_error key_id))
    (fun rotation_enabled =>
       ret (Body (JObj [ ("KeyRotationEnabled", JBool rotation_enabled) ]))).

(** A [Policy] entry of the request or of a key, [None] when absent. *)
Definition json_of_policy (p : option string) : json :=
  match p with Some d => JStr d | None => JNull end.

Definition put_key_policy
    (key_id : string) (policy_name policy : option string) : H :=
  _assert_valid_key_id key_id ;;
  _assert_default_policy policy_name ;;
  try_except_KeyError
    (update_or_KeyError (Backend.put_key_policy B key_id policy))
    (raise (key_does_not_exist_error key_id))
    (fun _ => ret (Body JNull)).

Definition get_key_policy (key_id : string) (policy_name : option string) : H :=
  _assert_valid_key_id key_id ;;
  _assert_default_policy policy_name ;;
  try_except_KeyError
    (lookup_or_KeyError (Backend.get_key_policy B key_id))
    (raise (key_does_not_exist_error key_id))
    (fun policy => ret (Body (JObj [ ("Policy", json_of_policy policy) ]))).

Definition list_key_policies (key_id : string) : H :=
  _assert_valid_key_id key_id ;;
  try_except_KeyError
    (lookup_or_KeyError (Backend.describe_key B key_id))
    (raise (key_does_not_exist_error key_id))
    (fun _ =>
       ret (Body (JObj [ ("Truncated", JBool false);
                         ("PolicyNames", JArr [ JStr "default" ]) ]))).

(** [plaintext] is [base64.b64decode(self.parameters.get('Plaintext'))]. *)
Definition encrypt
    (key_id : string) (plaintext : bytes) (encryption_context : context) : H :=
  let parsed_key_id := _parse_key_id key_id in
  _assert_valid_key_id parsed_key_id ;;
  r <~ query (Backend.encrypt B key_id plaintext encryption_context) ;;
  let '(ciphertext_key_id, ciphertext) := r in
  ret (Body (JObj [ ("CiphertextBlob", JB64 ciphertext);
                    ("KeyId", JStr ciphertext_key_id) ])).

Definition invalid_ciphertext_error : exn :=
  JSONResponseError 400 "Bad Request"
    (ErrBody
       (Some "The specified ciphertext has been corrupted or is otherwise invalid.")
       "InvalidCiphertextException").

(** [ciphertext] is
    [base64.b64decode(self.parameters.get('CiphertextBlob'))]. *)
Definition decrypt (ciphertext : bytes) (encryption_context : context) : H :=
  try_except_KeyError
    (lookup_or_KeyError (Backend.decrypt B ciphertext encryption_context))
    (raise invalid_ciphertext_error)
    (fun '(key_id, plaintext) =>
       ret (Body (JObj [ ("KeyId", JStr key_id);
                         ("Plaintext", JB64 plaintext) ]))).

Definition generate_data_key
    (key_id : string) (key_spec : option string) (number_of_bytes : option Z)
    (encryption_context : context) : H :=
  let parsed_key_id := _parse_key_id key_id in
  _assert_valid_key_id parsed_key_id ;;
  r <~ update_with (Backend.generate_data_key B key_id key_spec number_of_bytes
                      encryption_context) ;;
  let '(plaintext, _, ciphertext) := r in
  ret (Body (JObj [ ("CiphertextBlob", JB64 ciphertext);
                    ("KeyId", JStr key_id);
                    ("Plaintext", JB64 plaintext) ])).

Definition handle (r : request) : H :=
  match r with
  | CreateKey policy key_usage description =>
      create_key policy key_usage description
  | DescribeKey key_id => describe_key key_id
  | ListKeys => list_keys
  | CreateAlias alias_name target_key_id => create_alias alias_name target_key_id
  | DeleteAlias alias_name => delete_alias alias_name
  | ListAliases => list_aliases
  | EnableKeyRotation key_id => enable_key_rotation key_id
  | DisableKeyRotation key_id => disable_key_rotation key_id
  | GetKeyRotationStatus key_id => get_key_rotation_status key_id
  | PutKeyPolicy key_id policy_name policy =>
      put_key_policy key_id policy_name policy
  | GetKeyPolicy key_id policy_name => get_key_policy key_id policy_name
  | ListKeyPolicies key_id => list_key_policies key_id
  | Encrypt key_id plaintext c => encrypt key_id plaintext c
  | Decrypt ciphertext c => decrypt ciphertext c
  | GenerateDataKey key_id key_spec number_of_bytes c =>
      generate_data_key key_id key_spec number_of_bytes c
  end.

(** How a request ended: the failure kind of the exception raised; a
    reply whose status was set to 404 is the not-found answer of
    [describe_key]; any other reply is a success. *)
Definition failure_of (o : outcome reply) : option (option failure) :=
  match o with
  | Raise e => Some (kind_of e)
  | Return (BodyWithStatus _ status) =>
      if (status =? 404)%Z then Some (Some NotFound) else None
  | Return (Body _) => None
  end.

(** The exception [create_alias] raises when its [n]-th check is the
    first to fail. *)
Definition create_alias_error (alias_name : string) (n : nat) : exn :=
  match n with
  | 1%nat =>
      JSONResponseError 400 "Bad Request"
        (ErrBody (Some "Invalid identifier") "ValidationException")
  | 2%nat =>
      JSONResponseError 400 "Bad Request" (ErrBody None "NotAuthorizedException")
  | 3%nat =>
      JSONResponseError 400 "Bad Request"
        (ErrBody
           (Some (alias_name +:+ " contains invalid characters for an alias"))
           "ValidationException")
  | 4%nat =>
      JSONResponseError 400 "Bad Request"
        (ErrBody
           (Some ("1 validation error detected: Value '" +:+ alias_name
                  +:+ "' at 'aliasName' failed to satisfy constraint: Member must satisfy regular expression pattern: ^[a-zA-Z0-9:/_-]+$"))
           "ValidationException")
  | 5%nat =>
      JSONResponseError 400 "Bad Request"
        (ErrBody (Some "Aliases must refer to keys. Not aliases")
           "ValidationException")
  | _ =>
      AlreadyExistsException 400 "Bad Request"
        (ErrBody
           (Some ("An alias with the name arn:aws:kms:" +:+ region
                  +:+ ":012345678912:" +:+ alias_name +:+ " already exists"))
           "AlreadyExistsException")
  end.




End Handlers.
End KmsResponse.

(* ===================================================================== *)
(** ** A backend modelled from the specification *)
(* ===================================================================== *)

Module Models.

(** Modelled from the spec: the [Key] of section 3 ([moto/kms/models.py]
    is not part of the sources at hand). *)
Record Key : Type := MkKey {
  id : string;
  region : string;
  policy : option string;
  key_usage : option string;
  description : option string;
  key_rotation_status : bool;
}.

(** Modelled from the spec: "arn: derived, deterministic string combining
    region, account placeholder, and id"; the layout is the one the
    handlers print in their messages. *)
Definition arn (k : Key) : string :=
  "arn:aws:kms:" +:+ region k +:+ ":012345678912:key/" +:+ id k.

(** Modelled from the spec: the serialised form of a key carries the
    fields of the data model. *)
Definition to_dict (k : Key) : json :=
  JObj [ ("KeyMetadata",
          JObj [ ("Arn", JStr (arn k));
                 ("KeyId", JStr (id k));
                 ("Description",
                  match description k with Some d => JStr d | None => JNull end);
                 ("KeyUsage",
                  match key_usage k with Some u => JStr u | None => JNull end) ]) ].

(** Modelled from the spec: the ciphertext envelope of section 3, which
    "binds" the source key identifier, the plaintext and the encryption
    context.  The byte layout is left open by the specification. *)
Class EnvelopeFormat : Type := {
  seal : string -> context -> bytes -> bytes;
  unseal : bytes -> option (string * context * bytes);
}.

(** Modelled from the spec: what the specification asks of the envelope:
    the transform is reversible ([unseal_seal]), and a byte string that
    [seal] did not produce is recognised as foreign ([seal_unseal]). *)
Class EnvelopeLaws (F : EnvelopeFormat) : Prop := {
  unseal_seal : forall key_id c p, unseal (seal key_id c p) = Some (key_id, c, p);
  seal_unseal : forall b key_id c p,
    unseal b = Some (key_id, c, p) -> seal key_id c p = b;
}.

(** Modelled from the spec: the state of one region's backend.  The key
    registry and the alias index ("mapping of target_key_id to set-of
    alias_name"), and the source of the random bytes that key identifiers
    and data keys are drawn from: byte [cursor] of [entropy] is the next
    one to be handed out. *)
Record State : Type := MkState {
  keys : gmap string Key;
  key_to_aliases : gmap string (gset string);
  entropy : nat -> Byte.byte;
  cursor : nat;
}.

(** Modelled from the spec: assignment to the registry and to the index of
    the backend object. *)
Definition set_keys (f : gmap string Key -> gmap string Key) (s : State) : State :=
  MkState (f (keys s)) (key_to_aliases s) (entropy s) (cursor s).

Definition set_aliases
    (f : gmap string (gset string) -> gmap string (gset string)) (s : State)
    : State :=
  MkState (keys s) (f (key_to_aliases s)) (entropy s) (cursor s).

(** Modelled from the spec: the "fresh random byte sequence" of section
    4.4, as [os.urandom(n)] would give it: the next [n] bytes of [entropy]. *)
Definition urandom (n : nat) (s : State) : bytes * State :=
  (map (entropy s) (seq (cursor s) n),
   MkState (keys s) (key_to_aliases s) (entropy s) (cursor s + n)%nat).

(** Modelled from the spec: the hexadecimal digits of an identifier, in
    lower case. *)
Definition hex_digit (n : N) : ascii :=
  match String.get (N.to_nat n) "0123456789abcdef" with
  | Some c => c
  | None => "0"%char
  end.

Fixpoint hex (b : bytes) : string :=
  match b with
  | [] => EmptyString
  | x :: b' =>
      String (hex_digit (Byte.to_N x / 16))
        (String (hex_digit (Byte.to_N x mod 16)) (hex b'))
  end.

(** Modelled from the spec: "generates a fresh unique identifier", of the
    "format: 5 hyphen-separated hexadecimal groups": sixteen random bytes
    printed in groups of 4, 2, 2, 2 and 6 bytes. *)
Definition generate_key_id (r : bytes) : string :=
  hex (firstn 4 r) +:+ "-" +:+ hex (firstn 2 (skipn 4 r)) +:+ "-"
  +:+ hex (firstn 2 (skipn 6 r)) +:+ "-" +:+ hex (firstn 2 (skipn 8 r))
  +:+ "-" +:+ hex (firstn 6 (skipn 10 r)).

(** Modelled from the spec (section 9): the one function that, for every
    operation that accepts a key reference, strips the region and account
    prefix and takes the trailing identifier segment. *)
Definition get_key_id (key_id : string) : string := _parse_key_id key_id.

Section Methods.

Context {F : EnvelopeFormat}.

(** Modelled from the spec: the number of bytes of a data key "implied
    by key_spec when number_of_bytes is absent"; the specification does
    not give the table. *)
Variable key_spec_bytes : option string -> nat.

(** Modelled from the spec (4.1): [create_key] stores a new key with
    rotation disabled and never fails. *)
Definition create_key (policy key_usage description : option string)
    (region : string) (s : State) : Key * State :=
  let '(r, s) := urandom 16 s in
  let key := MkKey (generate_key_id r) region policy key_usage description false in
  (key, set_keys <[id key := key]> s).

(** Modelled from the spec (4.1): [describe_key] "resolves to the
    identifier portion before lookup". *)
Definition describe_key (key_id : string) (s : State) : option Key :=
  keys s !! get_key_id key_id.

(** Modelled from the spec (4.1): [list_keys], in the order of the
    registry. *)
Definition list_keys (s : State) : list Key :=
  snd <$> map_to_list (keys s).

(** Modelled from the spec (4.2): [alias_exists] tells whether its
    argument is a registered alias name, i.e. a member of one of the
    sets of the index.  (Applied to the target of a new alias this is
    the "must refer to keys, not aliases" check.) *)
Definition alias_exists (alias_name : string) (s : State) : bool :=
  bool_decide (map_Exists (fun _ aliases => alias_name ∈ aliases)
                 (key_to_aliases s)).

(** Modelled from the spec (4.2): [add_alias] "stores the mapping", with
    no validation of its own. *)
Definition add_alias (target_key_id alias_name : string) (s : State) : State :=
  set_aliases
    (fun m => <[target_key_id := default ∅ (m !! target_key_id) ∪ {[alias_name]}]> m)
    s.

(** Modelled from the spec (4.2): [delete_alias] "removes a mapping". *)
Definition delete_alias (alias_name : string) (s : State) : State :=
  set_aliases (fmap (fun aliases => aliases ∖ {[alias_name]})) s.

(** Modelled from the spec (4.2): [get_all_aliases], the "mapping of
    target_key_id to set-of alias_name" in the order [items()] and the
    iteration over each set give. *)
Definition get_all_aliases (s : State) : list (string * list string) :=
  (fun '(target, aliases) => (target, elements aliases))
    <$> map_to_list (key_to_aliases s).

(** Modelled from the spec: assignment to the fields [rotation_enabled]
    and [policy] of a key. *)
Definition set_rotation (b : bool) (k : Key) : Key :=
  MkKey (id k) (region k) (policy k) (key_usage k) (description k) b.

Definition set_policy (p : option string) (k : Key) : Key :=
  MkKey (id k) (region k) p (key_usage k) (description k)
    (key_rotation_status k).

(** Modelled from the spec (4.1): the rotation flag of a registered key;
    "fail with NotFound if the key identifier is absent". *)
Definition enable_key_rotation (key_id : string) (s : State) : option State :=
  k ← keys s !! key_id;
  Some (set_keys <[key_id := set_rotation true k]> s).

Definition disable_key_rotation (key_id : string) (s : State) : option State :=
  k ← keys s !! key_id;
  Some (set_keys <[key_id := set_rotation false k]> s).

Definition get_key_rotation_status (key_id : string) (s : State) : option bool :=
  key_rotation_status <$> keys s !! key_id.

(** Modelled from the spec (4.3): the one policy of a registered key. *)
Definition put_key_policy (key_id : string) (p : option string) (s : State)
    : option State :=
  k ← keys s !! key_id;
  Some (set_keys <[key_id := set_policy p k]> s).

Definition get_key_policy (key_id : string) (s : State) : option (option string) :=
  policy <$> keys s !! key_id.

(** Modelled from the spec (4.4): [encrypt] "resolves key_id (accepting
    ARN form) to a canonical key identifier first" and does not consult
    the registry. *)
Definition encrypt (key_id : string) (plaintext : bytes) (c : context)
    (s : State) : string * bytes :=
  let key_id := get_key_id key_id in
  (key_id, seal key_id c plaintext).

(** Modelled from the spec (4.4 and 9): [decrypt] fails on a byte string
    that is not an envelope, on an envelope of another context, and on
    an envelope whose key is not registered ("decrypt ... strictly
    require[s] existence"). *)
Definition decrypt (ciphertext : bytes) (c : context) (s : State)
    : option (string * bytes) :=
  '(key_id, c', plaintext) ← unseal ciphertext;
  _ ← keys s !! key_id;
  if decide (c' = c) then Some (key_id, plaintext) else None.

(** Modelled from the spec (4.4): [generate_data_key] draws
    [number_of_bytes] random bytes, or as many as [key_spec] implies,
    and encrypts them as [encrypt] does. *)
Definition generate_data_key (key_id : string) (key_spec : option string)
    (number_of_bytes : option Z) (c : context) (s : State)
    : (bytes * string * bytes) * State :=
  let n := match number_of_bytes with
           | Some n => Z.to_nat n
           | None => key_spec_bytes key_spec
           end in
  let '(plaintext, s) := urandom n s in
  let '(key_id, ciphertext) := encrypt key_id plaintext c s in
  ((plaintext, key_id, ciphertext), s).

(** Modelled from the spec: the backend object of a region. *)
Definition kms_backend : Backend.t :=
  Backend.Make State Key id arn to_dict
    create_key describe_key list_keys
    alias_exists add_alias delete_alias get_all_aliases
    enable_key_rotation disable_key_rotation get_key_rotation_status
    put_key_policy get_key_policy
    encrypt decrypt generate_data_key.

End Methods.

(** Modelled from the spec: the backend of a region before any request,
    "constructed on first use" (section 9). *)
Definition initial (tape : nat -> Byte.byte) : State := MkState ∅ ∅ tape 0.

End Models.

(** ** One envelope format

    Modelled from the spec: a byte layout for the envelope, used to run the
    backend on concrete requests.  A field is framed by its length in
    unary ([x01] repeated, then [x00]); the envelope is the framed key
    identifier, the encryption context (absent, or its entries in the order
    of the map) and the plaintext as it is. *)
Module Framed.

#[global] Instance byte_eq_dec : EqDecision Byte.byte := Byte.byte_eq_dec.

(** Modelled from the spec: a length in unary, and a field behind its
    length. *)
Definition unary (n : nat) : bytes := repeat x01 n ++ [x00].

Definition frame (b : bytes) : bytes := unary (length b) ++ b.

(** Modelled from the spec: the inverse of [unary] and of [frame], with the
    bytes that follow. *)
Fixpoint read_unary (b : bytes) : option (nat * bytes) :=
  match b with
  | x00 :: r => Some (O, r)
  | x01 :: r => (fun '(n, r') => (S n, r')) <$> read_unary r
  | _ => None
  end.

Definition unframe (b : bytes) : option (bytes * bytes) :=
  '(n, r) ← read_unary b;
  if decide (n ≤ length r)%nat then Some (firstn n r, skipn n r) else None.

(** Modelled from the spec: the entries of an encryption context, each
    announced by [x01], closed by [x00]. *)
Fixpoint write_entries (l : list (string * string)) : bytes :=
  match l with
  | [] => [x00]
  | (k, v) :: l' =>
      x01 :: frame (Py.encode k) ++ frame (Py.encode v) ++ write_entries l'
  end.

Fixpoint read_entries (fuel : nat) (b : bytes)
    : option (list (string * string) * bytes) :=
  match fuel with
  | O => None
  | S fuel' =>
      match b with
      | x00 :: r => Some ([], r)
      | x01 :: r =>
          '(k, r) ← unframe r;
          '(v, r) ← unframe r;
          '(l, r) ← read_entries fuel' r;
          Some ((Py.decode k, Py.decode v) :: l, r)
      | _ => None
      end
  end.

(** Modelled from the spec: the "encryption-context binding" of the
    envelope: [x00] when the request had no context, [x01] and the entries
    otherwise. *)
Definition write_context (c : context) : bytes :=
  match c with
  | None => [x00]
  | Some m => x01 :: write_entries (map_to_list m)
  end.

Definition read_context (b : bytes) : option (context * bytes) :=
  match b with
  | x00 :: r => Some (None, r)
  | x01 :: r =>
      '(l, r) ← read_entries (S (length r)) r;
      Some (Some (list_to_map l), r)
  | _ => None
  end.

(** Modelled from the spec: the envelope of section 3: "source key
    identifier, the plaintext (transformed, not necessarily strongly
    encrypted), and an encryption-context binding". *)
Definition write (key_id : string) (c : context) (p : bytes) : bytes :=
  frame (Py.encode key_id) ++ write_context c ++ p.

Definition read (b : bytes) : option (string * context * bytes) :=
  '(k, r) ← unframe b;
  '(c, p) ← read_context r;
  Some (Py.decode k, c, p).

(** Modelled from the spec: "decrypting a tampered or foreign-format
    ciphertext fails": a byte string is accepted only if it is, byte for
    byte, what [write] produces for the envelope read. *)
Definition read_exact (b : bytes) : option (string * context * bytes) :=
  '(k, c, p) ← read b;
  if decide (write k c p = b) then Some (k, c, p) else None.

#[global] Instance format : Models.EnvelopeFormat :=
  {| Models.seal := write; Models.unseal := read_exact |}.

(** Modelled from the spec: a table for the data-key length "implied by
    key_spec": 16 bytes for [AES_128], 32 otherwise. *)
Definition key_spec_bytes (key_spec : option string) : nat :=
  match key_spec with
  | Some "AES_128" => 16
  | _ => 32
  end.

(** Modelled from the spec: the backend with this format and table. *)
Definition backend : Backend.t := Models.kms_backend key_spec_bytes.

(** An entropy source for the examples: byte [i] is [i mod 256]. *)
Definition tape (i : nat) : Byte.byte :=
  match Byte.of_N (N.of_nat i mod 256) with
  | Some b => b
  | None => x00
  end.

End Framed.

(* ===================================================================== *)
(** ** Notions used in the statements *)
(* ===================================================================== *)

(** Every character of [s] satisfies [p]. *)
Fixpoint str_forall (p : ascii -> bool) (s : string) : bool :=
  match s with
  | EmptyString => true
  | String c s' => p c && str_forall p s'
  end.

(** The words of a regular expression. *)
Inductive lang : Re.regex -> string -> Prop :=
| lang_Eps : lang Re.Eps EmptyString
| lang_Class p c : p c = true -> lang (Re.Class p) (String c EmptyString)
| lang_Cat r1 r2 s1 s2 :
    lang r1 s1 -> lang r2 s2 -> lang (Re.Cat r1 r2) (s1 +:+ s2)
| lang_Alt_l r1 r2 s : lang r1 s -> lang (Re.Alt r1 r2) s
| lang_Alt_r r1 r2 s : lang r2 s -> lang (Re.Alt r1 r2) s
| lang_Star_nil r : lang (Re.Star r) EmptyString
| lang_Star_app r s1 s2 :
    lang r s1 -> lang (Re.Star r) s2 -> lang (Re.Star r) (s1 +:+ s2).

(** The characters that occur in the words of a regular expression. *)
Fixpoint alphabet (r : Re.regex) (c : ascii) : bool :=
  match r with
  | Re.Void | Re.Eps => false
  | Re.Class p => p c
  | Re.Cat r1 r2 | Re.Alt r1 r2 => alphabet r1 c || alphabet r2 c
  | Re.Star r' => alphabet r' c
  end.

(** The identifier shape in the words of the specification: "5 groups of
    hex digits separated by hyphens, lengths 8-4-4-4-12,
    case-insensitive". *)
Definition is_hex_digit (c : ascii) : bool :=
  Re.between "0" "9" c || Re.between "a" "f" c || Re.between "A" "F" c.

Definition hex_group (n : nat) (g : string) : bool :=
  (String.length g =? n)%nat && str_forall is_hex_digit g.

Definition canonical_key_id (s : string) : bool :=
  match Py.split "-" s with
  | [g1; g2; g3; g4; g5] =>
      hex_group 8 g1 && hex_group 4 g2 && hex_group 4 g3 && hex_group 4 g4
      && hex_group 12 g5
  | _ => false
  end.

(** An identifier that has not the shape of the specification, also when
    a newline at its end is left aside. *)
Definition malformed_key_id (s : string) : Prop :=
  canonical_key_id s = false /\
  forall t, s = t +:+ String "010" EmptyString -> canonical_key_id t = false.

(** The characters of a string that [_assert_valid_key_id] lets through. *)
Definition key_id_char (c : ascii) : bool :=
  is_hex_digit c || Ascii.eqb c "-" || Ascii.eqb c "010".

(** The states a region's backend goes through: the initial one, and the
    state after any request handled in a state it goes through. *)
Inductive reachable `{F : Models.EnvelopeFormat}
    (key_spec_bytes : option string -> nat) (region : string)
    (tape : nat -> Byte.byte) : Models.State -> Prop :=
| reachable_initial : reachable key_spec_bytes region tape (Models.initial tape)
| reachable_handle s r :
    reachable key_spec_bytes region tape s ->
    reachable key_spec_bytes region tape
      (snd (KmsResponse.handle (Models.kms_backend key_spec_bytes) region r s)).

(** [alias_name] is in the alias index. *)
Definition registered_alias (alias_name : string) (s : Models.State) : Prop :=
  exists target aliases,
    Models.key_to_aliases s !! target = Some aliases /\ alias_name ∈ aliases.

(** Every key of the registry is filed under its own identifier, which has
    the shape [_assert_valid_key_id] asks for. *)
Definition registry_wf (s : Models.State) : Prop :=
  forall key_id k,
    Models.keys s !! key_id = Some k ->
    Models.id k = key_id /\ valid_key_id key_id = true.

(** ** Notions used in the further properties *)

(** [f] applied to every character of [s] (as [s.upper()] and [s.lower()]
    do with [Re.upper] and [Re.lower]). *)
Fixpoint str_map (f : ascii -> ascii) (s : string) : string :=
  match s with
  | EmptyString => EmptyString
  | String c s' => String (f c) (str_map f s')
  end.

(** Every character class of [r] gives the same answer on [c] and on
    [f c]. *)
Fixpoint class_invariant (f : ascii -> ascii) (r : Re.regex) : Prop :=
  match r with
  | Re.Void | Re.Eps => True
  | Re.Class p => forall c, p (f c) = p c
  | Re.Cat r1 r2 | Re.Alt r1 r2 => class_invariant f r1 /\ class_invariant f r2
  | Re.Star r' => class_invariant f r'
  end.

(** A key reference that passes the resolution and the shape check of
    [encrypt] and [generate_data_key]: an identifier that passes the check
    as it is, or a string with ['arn'] in it that ends in a colon or a
    slash followed by such an identifier. *)
Definition accepted_key_reference (key_ref : string) : Prop :=
  valid_key_id key_ref = true
  \/ (Py.contains "arn" key_ref = true
      /\ exists prefix c key_id,
           key_ref = prefix +:+ String c key_id
           /\ (c = ":"%char \/ c = "/"%char)
           /\ valid_key_id key_id = true).

(** The characters of an alias name that [create_alias] lets through: those
    of the character class, the colon apart. *)
Definition alias_body_char (c : ascii) : bool :=
  alias_name_class c && negb (Ascii.eqb c ":").

(** The alias names that pass the four checks [create_alias] makes on the
    name alone. *)
Definition acceptable_alias_name (alias_name : string) : bool :=
  Py.startswith alias_name "alias/"
  && negb (Py.in_list alias_name reserved_aliases)
  && (str_forall alias_body_char alias_name
      || match Re.chomp alias_name with
         | Some t => str_forall alias_body_char t
         | None => false
         end).

(** The failure kinds a request can end in. *)
Definition possible_failures (r : KmsResponse.request) : list failure :=
  match r with
  | KmsResponse.CreateKey _ _ _ | KmsResponse.ListKeys
  | KmsResponse.ListAliases => []
  | KmsResponse.CreateAlias _ _ => [InvalidArgument; NotAuthorized; AlreadyExists]
  | KmsResponse.DeleteAlias _ => [InvalidArgument; NotFound]
  | KmsResponse.Decrypt _ _ => [InvalidCiphertext]
  | _ => [NotFound]
  end.

(** The HTTP status the handlers give to a failure of a request: 400 for
    the requests on aliases and for [decrypt], 404 for the requests that
    name a key. *)
Definition failure_status (r : KmsResponse.request) : Z :=
  match r with
  | KmsResponse.CreateAlias _ _ | KmsResponse.DeleteAlias _
  | KmsResponse.Decrypt _ _ => 400
  | _ => 404
  end.

(** The HTTP status of the end of a request: 200 for a body returned as it
    is, the ['status'] header of a reply that sets it, the status given to
    a boto exception; a bare [KeyError] has none. *)
Definition status_of (o : outcome reply) : option Z :=
  match o with
  | Return (Body _) => Some 200
  | Return (BodyWithStatus _ status) => Some status
  | Raise (JSONResponseError status _ _)
  | Raise (AlreadyExistsException status _ _)
  | Raise (NotFoundException status _ _) => Some status
  | Raise KeyError => None
  end.

(** ** A concrete scenario

    The scenario of section 8: a key with usage [ENCRYPT_DECRYPT] is
    created in a fresh region, and ["hello"] is encrypted under the context
    [{"ctx": "a"}]. *)
Module Example.

Definition region : string := "us-east-1".

Definition B : Backend.t := Framed.backend.

Definition s0 : Models.State := Models.initial Framed.tape.

Definition s1 : Models.State :=
  snd (KmsResponse.handle B region
         (KmsResponse.CreateKey (Some "policy") (Some "ENCRYPT_DECRYPT") None) s0).

Definition K : Models.Key :=
  Models.MkKey "00010203-0405-0607-0809-0a0b0c0d0e0f" region
    (Some "policy") (Some "ENCRYPT_DECRYPT") None false.

Definition hello : bytes := Py.encode "hello".

Definition ctx_a : context := Some {[ "ctx" := "a" ]}.
Definition ctx_b : context := Some {[ "ctx" := "b" ]}.

(** The identifier of [K] with a newline after it: 37 characters, the last
    of which is no hex digit. *)
Definition K_id_newline : string := Models.id K +:+ String "010" EmptyString.

End Example.

(* ===================================================================== *)
(** * Properties *)
(* ===================================================================== *)

(** The tests of the handlers are kept folded while a handler is run. *)
#[local] Arguments Py.in_list : simpl never.
#[local] Arguments Py.startswith : simpl never.
#[local] Arguments Re.match_anchored : simpl never.
#[local] Arguments valid_key_id : simpl never.

(** ** Strings *)

Lemma append_nil_l (s : string) : EmptyString +:+ s = s.
Proof. reflexivity. Qed.

Lemma append_cons (c : ascii) (s1 s2 : string) :
  String c s1 +:+ s2 = String c (s1 +:+ s2).
Proof. reflexivity. Qed.

Lemma append_nil_r (s : string) : s +:+ EmptyString = s.
Proof.
  induction s as [|c s IH]; [done |]. by rewrite append_cons, IH.
Qed.

Lemma append_assoc (s1 s2 s3 : string) : (s1 +:+ s2) +:+ s3 = s1 +:+ (s2 +:+ s3).
Proof.
  induction s1 as [|c s1 IH]; [done |]. by rewrite !append_cons, IH.
Qed.

Lemma append_eq_nil (s1 s2 : string) :
  s1 +:+ s2 = EmptyString -> s1 = EmptyString /\ s2 = EmptyString.
Proof. destruct s1; [done | discriminate]. Qed.

Lemma str_forall_app p s1 s2 :
  str_forall p (s1 +:+ s2) = str_forall p s1 && str_forall p s2.
Proof.
  induction s1 as [|c s1 IH]; [done |].
  rewrite append_cons. simpl. by rewrite IH, andb_assoc.
Qed.

Lemma str_forall_impl (p q : ascii -> bool) s :
  (forall c, p c = true -> q c = true) ->
  str_forall p s = true -> str_forall q s = true.
Proof.
  intros Hpq. induction s as [|c s IH]; simpl; [done |].
  intros [Hc Hs]%andb_true_iff. apply andb_true_iff. auto.
Qed.

Lemma prefix_forall p sub s :
  String.prefix sub s = true -> str_forall p s = true -> str_forall p sub = true.
Proof.
  revert s. induction sub as [|a sub IH]; intros [|b s]; simpl; try done.
  destruct (ascii_dec a b) as [->|]; [|done].
  intros Hpre [Hb Hs]%andb_true_iff. apply andb_true_iff. eauto.
Qed.

(** A substring consists of characters of the string. *)
Lemma contains_cons sub b s :
  Py.contains sub (String b s) = String.prefix sub (String b s) || Py.contains sub s.
Proof. reflexivity. Qed.

Lemma contains_forall p sub s :
  Py.contains sub s = true -> str_forall p s = true -> str_forall p sub = true.
Proof.
  induction s as [|b s IH].
  - destruct sub; [done | discriminate].
  - rewrite contains_cons. intros [Hpre | Hin]%orb_true_iff Hall.
    + exact (prefix_forall p _ _ Hpre Hall).
    + apply andb_true_iff in Hall as [_ Hs]. auto.
Qed.

(** ** Regular expressions: the matcher computes membership in [lang] *)

Lemma nullable_lang r : Re.nullable r = true <-> lang r EmptyString.
Proof.
  split.
  - induction r; simpl; try done.
    + constructor.
    + intros [H1 H2]%andb_true_iff.
      change EmptyString with (EmptyString +:+ EmptyString). constructor; auto.
    + intros [H|H]%orb_true_iff; [apply lang_Alt_l | apply lang_Alt_r]; auto.
    + constructor.
  - remember EmptyString as s eqn:Hs. intros H.
    induction H; simpl; subst; try done.
    + apply append_eq_nil in Hs as [-> ->]. apply andb_true_iff. auto.
    + apply orb_true_iff. auto.
    + apply orb_true_iff. auto.
Qed.

Lemma lang_deriv_intro r w :
  lang r w -> forall c s, w = String c s -> lang (Re.deriv c r) s.
Proof.
  induction 1 as [ | p a Hp | r1 r2 s1 s2 H1 IH1 H2 IH2 | r1 r2 s0 H IH
                 | r1 r2 s0 H IH | r | r s1 s2 H1 IH1 H2 IH2 ];
    intros c s Hw; simpl.
  - discriminate.
  - injection Hw as -> <-. rewrite Hp. constructor.
  - destruct s1 as [|a s1].
    + rewrite append_nil_l in Hw. subst s2.
      apply nullable_lang in H1. rewrite H1.
      apply lang_Alt_r. by apply IH2.
    + rewrite append_cons in Hw. injection Hw as -> <-.
      assert (lang (Re.Cat (Re.deriv c r1) r2) (s1 +:+ s2)) as HC
        by (constructor; auto).
      destruct (Re.nullable r1); [by apply lang_Alt_l | done].
  - apply lang_Alt_l. by apply IH.
  - apply lang_Alt_r. by apply IH.
  - discriminate.
  - destruct s1 as [|a s1].
    + rewrite append_nil_l in Hw. by apply IH2.
    + rewrite append_cons in Hw. injection Hw as -> <-.
      constructor; auto.
Qed.

Lemma lang_deriv_elim r : forall c s, lang (Re.deriv c r) s -> lang r (String c s).
Proof.
  induction r as [ | | p | r1 IH1 r2 IH2 | r1 IH1 r2 IH2 | r IH ];
    intros c s H; simpl in H.
  - inversion H.
  - inversion H.
  - destruct (p c) eqn:Hp; inversion H; subst. by constructor.
  - assert (forall t, lang (Re.Cat (Re.deriv c r1) r2) t ->
                      lang (Re.Cat r1 r2) (String c t)) as HC.
    { intros t Ht. inversion Ht; subst.
      rewrite <- append_cons. constructor; auto. }
    destruct (Re.nullable r1) eqn:Hn; [|by apply HC].
    inversion H; subst; [by apply HC |].
    rewrite <- (append_nil_l (String c s)).
    constructor; [by apply nullable_lang | auto].
  - inversion H; subst; [apply lang_Alt_l | apply lang_Alt_r]; auto.
  - inversion H; subst. rewrite <- append_cons. constructor; auto.
Qed.

Lemma fullmatch_lang r s : Re.fullmatch r s = true <-> lang r s.
Proof.
  revert r. induction s as [|c s IH]; intros r; simpl.
  - apply nullable_lang.
  - rewrite IH. split.
    + apply lang_deriv_elim.
    + intros H. by eapply lang_deriv_intro.
Qed.

Lemma chomp_cons c c' s :
  Re.chomp (String c (String c' s)) = option_map (String c) (Re.chomp (String c' s)).
Proof. reflexivity. Qed.

Lemma chomp_Some s t : Re.chomp s = Some t <-> s = t +:+ String "010" EmptyString.
Proof.
  revert t. induction s as [|c s IH]; intros t.
  - split; [done |]. destruct t; discriminate.
  - destruct s as [|c' s].
    + simpl. destruct (Ascii.eqb_spec c "010"%char) as [->|Hc].
      * split.
        -- by intros [= <-].
        -- destruct t as [|a [|b t]]; try discriminate. done.
      * split; [done |].
        destruct t as [|a [|b t]]; try discriminate.
        intros [= ->]. done.
    + rewrite chomp_cons.
      destruct (Re.chomp (String c' s)) as [u|]; simpl.
      * pose proof (proj1 (IH u) eq_refl) as Hu. split.
        -- intros [= <-]. by rewrite append_cons, <- Hu.
        -- destruct t as [|a t]; [discriminate |].
           rewrite append_cons. intros [= -> Ht]. f_equal. f_equal.
           apply IH in Ht. by injection Ht.
      * split; [done |].
        destruct t as [|a t]; [discriminate |].
        rewrite append_cons. intros [= -> Ht].
        apply IH in Ht. discriminate.
Qed.

(** [re.match] with the anchors [^] and [$]: the string is a word of the
    pattern, or such a word followed by one newline. *)
Lemma match_anchored_lang r s :
  Re.match_anchored r s = true <->
  lang r s \/ exists t, s = t +:+ String "010" EmptyString /\ lang r t.
Proof.
  unfold Re.match_anchored. rewrite orb_true_iff, fullmatch_lang.
  split; (intros [H|H]; [by left | right]).
  - destruct (Re.chomp s) as [t|] eqn:Ht; [|done].
    exists t. split; [by apply chomp_Some | by apply fullmatch_lang].
  - destruct H as (t & Hs & Ht). apply chomp_Some in Hs. rewrite Hs.
    by apply fullmatch_lang.
Qed.

(** A word consists of characters of the pattern. *)
Lemma lang_alphabet r s : lang r s -> str_forall (alphabet r) s = true.
Proof.
  induction 1; simpl; try done.
  - by rewrite H.
  - rewrite str_forall_app. apply andb_true_iff. split.
    + eapply str_forall_impl; [|done]. intros c ->. done.
    + eapply str_forall_impl; [|done]. intros c ->. apply orb_true_r.
  - eapply str_forall_impl; [|done]. intros c ->. done.
  - eapply str_forall_impl; [|done]. intros c ->. apply orb_true_r.
  - rewrite str_forall_app. apply andb_true_iff. split; done.
Qed.

(** ** Running a handler *)

(** Unfold the handler monad and split on every test a handler makes. *)
Ltac unfold_monad :=
  repeat progress
    unfold bind, ret, raise, raise_if, query, update, update_with,
      lookup_or_KeyError, update_or_KeyError, try_except_KeyError,
      _assert_valid_key_id, _assert_default_policy in *.

Ltac run_handler :=
  unfold KmsResponse.handle, KmsResponse.create_key, KmsResponse.describe_key,
    KmsResponse.list_keys, KmsResponse.create_alias, KmsResponse.delete_alias,
    KmsResponse.list_aliases, KmsResponse.enable_key_rotation,
    KmsResponse.disable_key_rotation, KmsResponse.get_key_rotation_status,
    KmsResponse.put_key_policy, KmsResponse.get_key_policy,
    KmsResponse.list_key_policies, KmsResponse.encrypt, KmsResponse.decrypt,
    KmsResponse.generate_data_key in *;
  unfold_monad.

Ltac reduce := cbn beta iota zeta delta [fst snd] in *.

Ltac split_test :=
  match goal with
  | |- context [Backend.create_key ?B ?p ?u ?d ?r ?s] =>
      destruct (Backend.create_key B p u d r s) as [? ?] eqn:?
  | |- context [Backend.encrypt ?B ?k ?p ?c ?s] =>
      destruct (Backend.encrypt B k p c s) as [? ?] eqn:?
  | |- context [Backend.generate_data_key ?B ?k ?ks ?n ?c ?s] =>
      destruct (Backend.generate_data_key B k ks n c s) as [[[? ?] ?] ?] eqn:?
  | |- context [if ?b then _ else _] =>
      lazymatch b with
      | context [if _ then _ else _] => fail
      | _ => destruct b eqn:?
      end
  | |- context [match ?x with Some _ => _ | None => _ end] =>
      lazymatch x with
      | context [if _ then _ else _] => fail
      | _ => destruct x eqn:?
      end
  | p : (_ * _)%type |- _ => destruct p
  end.

Ltac split_tests := reduce; repeat (split_test; reduce).

(** ** Key identifiers and key references *)

Lemma alphabet_key_id_pattern c :
  alphabet key_id_pattern c = true -> key_id_char c = true.
Proof. destruct c as [[] [] [] [] [] [] [] []]; vm_compute; done. Qed.

Lemma valid_key_id_chars s :
  valid_key_id s = true -> str_forall key_id_char s = true.
Proof.
  intros [H | (t & -> & H)]%match_anchored_lang.
  - apply lang_alphabet in H.
    eapply str_forall_impl; [apply alphabet_key_id_pattern | done].
  - apply lang_alphabet in H. rewrite str_forall_app.
    apply andb_true_iff. split; [|done].
    eapply str_forall_impl; [apply alphabet_key_id_pattern | done].
Qed.

(** A string with a character foreign to key identifiers does not occur
    in an identifier of the accepted shape. *)
Lemma valid_key_id_no_substring s sub :
  valid_key_id s = true -> str_forall key_id_char sub = false ->
  Py.contains sub s = false.
Proof.
  intros Hv Hsub. destruct (Py.contains sub s) eqn:Hc; [|done].
  apply (contains_forall key_id_char) in Hc; [congruence |].
  by apply valid_key_id_chars.
Qed.

(** An identifier of the accepted shape is its own resolution. *)
Lemma parse_key_id_valid s : valid_key_id s = true -> _parse_key_id s = s.
Proof.
  intros Hv. unfold _parse_key_id.
  by rewrite (valid_key_id_no_substring s "arn" Hv).
Qed.

Lemma split_cons sep c s :
  Py.split sep (String c s) =
  if Ascii.eqb c sep then EmptyString :: Py.split sep s
  else match Py.split sep s with
       | h :: t => String c h :: t
       | [] => [String c EmptyString]
       end.
Proof. reflexivity. Qed.

Lemma split_no_separator sep s :
  Py.contains (String sep EmptyString) s = false -> Py.split sep s = [s].
Proof.
  induction s as [|c s IH]; [done |].
  rewrite contains_cons, split_cons. intros [Hp Hc]%orb_false_iff.
  simpl in Hp. destruct (ascii_dec sep c) as [->|Hne]; [by destruct s |].
  destruct (Ascii.eqb_spec c sep) as [Heq|_]; [congruence |].
  by rewrite IH.
Qed.

Lemma split_not_nil sep s : Py.split sep s <> [].
Proof.
  destruct s as [|c s]; [done |]. rewrite split_cons.
  destruct (Ascii.eqb c sep); [done |]. by destruct (Py.split sep s).
Qed.

(** [(a + sep + b).split(sep) == a.split(sep) + b.split(sep)] *)
Lemma split_app sep a b :
  Py.split sep (a +:+ String sep b) = Py.split sep a ++ Py.split sep b.
Proof.
  induction a as [|c a IH].
  - by rewrite append_nil_l, split_cons, Ascii.eqb_refl.
  - rewrite append_cons, !split_cons, IH.
    destruct (Ascii.eqb c sep); [done |].
    pose proof (split_not_nil sep a). by destruct (Py.split sep a).
Qed.

Lemma last_app_not_nil (l1 l2 : list string) :
  l2 <> [] -> List.last (l1 ++ l2) EmptyString = List.last l2 EmptyString.
Proof.
  intros Hne. induction l1 as [|x l1 IH]; [done |].
  rewrite <- IH. simpl. destruct (l1 ++ l2) eqn:E; [|done].
  by apply app_eq_nil in E as [_ ?].
Qed.

Lemma last_split_app sep a b :
  Py.last (Py.split sep (a +:+ String sep b)) = Py.last (Py.split sep b).
Proof.
  unfold Py.last. rewrite split_app.
  apply last_app_not_nil, split_not_nil.
Qed.

Lemma prefix_app sub s t :
  String.prefix sub s = true -> String.prefix sub (s +:+ t) = true.
Proof.
  revert s. induction sub as [|a sub IH]; intros [|b s]; try done.
  - intros _. by destruct t.
  - rewrite append_cons. simpl. destruct (ascii_dec a b); [apply IH | done].
Qed.

Lemma contains_app sub s t :
  Py.contains sub s = true -> Py.contains sub (s +:+ t) = true.
Proof.
  induction s as [|b s IH].
  - destruct sub; [|discriminate]. intros _. by destruct t.
  - rewrite append_cons, !contains_cons.
    intros [H|H]%orb_true_iff; apply orb_true_iff.
    + left. rewrite <- append_cons. by apply prefix_app.
    + right. auto.
Qed.

(** The resolution of a reference in ARN form is its trailing identifier. *)
Lemma parse_key_id_arn prefix key_id :
  Py.contains "arn" prefix = true -> valid_key_id key_id = true ->
  _parse_key_id (prefix +:+ ":key/" +:+ key_id) = key_id.
Proof.
  intros Harn Hv. unfold _parse_key_id.
  rewrite (contains_app _ _ _ Harn).
  change (":key/" +:+ key_id) with (String ":" ("key/" +:+ key_id)).
  rewrite last_split_app.
  assert (Py.contains ":" ("key/" +:+ key_id) = false) as Hcolon.
  { change ("key/" +:+ key_id)
      with (String "k" (String "e" (String "y" (String "/" key_id)))).
    rewrite !contains_cons.
    by rewrite (valid_key_id_no_substring key_id ":" Hv). }
  rewrite (split_no_separator _ _ Hcolon). unfold Py.last at 2. simpl List.last.
  change ("key/" +:+ key_id) with ("key" +:+ String "/" key_id).
  rewrite last_split_app.
  rewrite split_no_separator; [done |].
  by apply valid_key_id_no_substring.
Qed.

Lemma parse_key_id_models_arn (k : Models.Key) :
  valid_key_id (Models.id k) = true ->
  _parse_key_id (Models.arn k) = Models.id k.
Proof.
  intros Hv. unfold Models.arn.
  rewrite <- (parse_key_id_arn ("arn:aws:kms:" +:+ Models.region k +:+ ":012345678912")
                (Models.id k)) at 2; [|done|done].
  by rewrite !append_assoc.
Qed.

(** ** The framed envelope format is reversible and exact *)

Lemma read_unary_unary n r : Framed.read_unary (Framed.unary n ++ r) = Some (n, r).
Proof.
  unfold Framed.unary. induction n as [|n IH]; [done |].
  simpl. simpl in IH. by rewrite IH.
Qed.

Lemma unframe_frame b r : Framed.unframe (Framed.frame b ++ r) = Some (b, r).
Proof.
  unfold Framed.unframe, Framed.frame.
  rewrite <- app_assoc, read_unary_unary. simpl.
  rewrite decide_True by (rewrite length_app; lia).
  by rewrite take_app_length, drop_app_length.
Qed.

Lemma write_entries_length l : (length l < length (Framed.write_entries l))%nat.
Proof.
  induction l as [|[k v] l IH]; simpl; [lia |].
  rewrite !length_app. lia.
Qed.

Lemma read_entries_write l : forall fuel r,
  (length l < fuel)%nat ->
  Framed.read_entries fuel (Framed.write_entries l ++ r) = Some (l, r).
Proof.
  induction l as [|[k v] l IH]; intros [|fuel] r Hfuel; simpl in *; try lia.
  - done.
  - rewrite <- !app_assoc, unframe_frame. simpl.
    rewrite unframe_frame. simpl.
    rewrite IH by lia. simpl.
    unfold Py.decode, Py.encode.
    by rewrite !String.string_of_list_byte_of_string.
Qed.

Lemma read_context_x01 (r : bytes) :
  Framed.read_context (x01 :: r) =
  '(l, r') ← Framed.read_entries (S (length r)) r; Some (Some (list_to_map l), r').
Proof. reflexivity. Qed.

Lemma read_context_write c r :
  Framed.read_context (Framed.write_context c ++ r) = Some (c, r).
Proof.
  destruct c as [m|]; [|done].
  unfold Framed.write_context. rewrite <- app_comm_cons, read_context_x01.
  rewrite read_entries_write.
  - simpl. by rewrite list_to_map_to_list.
  - pose proof (write_entries_length (map_to_list m)).
    rewrite length_app. lia.
Qed.

Lemma read_write key_id c p :
  Framed.read (Framed.write key_id c p) = Some (key_id, c, p).
Proof.
  unfold Framed.read, Framed.write.
  rewrite unframe_frame. simpl. rewrite read_context_write. simpl.
  unfold Py.decode, Py.encode.
  by rewrite String.string_of_list_byte_of_string.
Qed.

Lemma framed_laws : Models.EnvelopeLaws Framed.format.
Proof.
  split; simpl; unfold Framed.read_exact.
  - intros key_id c p. rewrite read_write. simpl.
    by rewrite decide_True.
  - intros b key_id c p.
    destruct (Framed.read b) as [[[k c'] p']|]; simpl; [|done].
    case_decide; [|done]. by intros [= <- <- <-].
Qed.

(** ** The accepted shape and the shape of the specification *)

Lemma lang_Cat_inv r1 r2 s :
  lang (Re.Cat r1 r2) s -> exists s1 s2, s = s1 +:+ s2 /\ lang r1 s1 /\ lang r2 s2.
Proof. inversion 1; subst. eauto. Qed.

Lemma lang_lit_inv c s : lang (Re.lit c) s -> s = String c EmptyString.
Proof.
  unfold Re.lit. inversion 1 as [ | p a Hp | | | | | ]; subst.
  by apply Ascii.eqb_eq in Hp as ->.
Qed.

Lemma lang_rep_class n p g :
  lang (Re.rep n (Re.Class p)) g <->
  String.length g = n /\ str_forall p g = true.
Proof.
  revert g. induction n as [|n IH]; intros g; simpl.
  - split.
    + inversion 1. done.
    + intros [Hlen _]. destruct g; [constructor | discriminate].
  - split.
    + intros (s1 & s2 & -> & H1 & H2)%lang_Cat_inv.
      inversion H1 as [ | p' a Hp | | | | | ]; subst.
      apply IH in H2 as [<- Hall]. rewrite append_cons, append_nil_l. simpl.
      by rewrite Hp, Hall.
    + intros [Hlen Hall]. destruct g as [|a g]; [discriminate |].
      simpl in Hlen, Hall. apply andb_true_iff in Hall as [Ha Hg].
      change (String a g) with (String a EmptyString +:+ g).
      constructor; [by constructor |]. apply IH. split; [lia | done].
Qed.

Lemma lang_hyphen_cons s r :
  lang r s -> lang (Re.Cat (Re.lit "-") r) (String "-" s).
Proof.
  intros H. change (String "-" s) with (String "-" EmptyString +:+ s).
  constructor; [|done]. by constructor.
Qed.

Lemma hex_class_is_hex_digit c : hex_class c = is_hex_digit c.
Proof. destruct c as [[] [] [] [] [] [] [] []]; vm_compute; reflexivity. Qed.

Lemma lang_hex_group_iff n g :
  lang (Re.rep n (Re.Class hex_class)) g <-> hex_group n g = true.
Proof.
  rewrite lang_rep_class. unfold hex_group.
  rewrite andb_true_iff, Nat.eqb_eq.
  assert (str_forall hex_class g = str_forall is_hex_digit g) as ->; [|done].
  induction g as [|a g IH]; simpl; [done |].
  by rewrite IH, hex_class_is_hex_digit.
Qed.

Lemma str_forall_no_char p c g :
  str_forall p g = true -> p c = false ->
  Py.contains (String c EmptyString) g = false.
Proof.
  intros Hall Hc.
  destruct (Py.contains (String c EmptyString) g) eqn:Hin; [|done].
  apply (contains_forall p) in Hin; [|done].
  simpl in Hin. by rewrite Hc in Hin.
Qed.

Lemma hex_group_no_hyphen n g :
  hex_group n g = true -> Py.split "-" g = [g].
Proof.
  intros [_ Hall]%andb_true_iff. apply split_no_separator.
  by apply (str_forall_no_char is_hex_digit).
Qed.

(** The first field of a split and the rest of the string. *)
Lemma split_inv sep s g rest :
  Py.split sep s = g :: rest ->
  (rest = [] /\ s = g)
  \/ (exists s', s = g +:+ String sep s' /\ Py.split sep s' = rest).
Proof.
  revert g rest. induction s as [|c s IH]; intros g rest.
  - intros [= <- <-]. by left.
  - rewrite split_cons. destruct (Ascii.eqb_spec c sep) as [->|Hne].
    + intros [= <- <-]. right. by exists s.
    + pose proof (split_not_nil sep s).
      destruct (Py.split sep s) as [|h t] eqn:Hs; [done |].
      intros [= <- <-].
      destruct (IH h t eq_refl) as [[-> ->] | (s' & -> & Hs')].
      * by left.
      * right. exists s'. by rewrite append_cons.
Qed.

Lemma lang_key_id_pattern s : lang key_id_pattern s <-> canonical_key_id s = true.
Proof.
  unfold key_id_pattern, canonical_key_id. split.
  - intros (g1 & ? & -> & H1 & (? & ? & -> & ->%lang_lit_inv
            & (g2 & ? & -> & H2 & (? & ? & -> & ->%lang_lit_inv
            & (g3 & ? & -> & H3 & (? & ? & -> & ->%lang_lit_inv
            & (g4 & ? & -> & H4 & (? & g5 & -> & ->%lang_lit_inv & H5
           )%lang_Cat_inv)%lang_Cat_inv)%lang_Cat_inv)%lang_Cat_inv
           )%lang_Cat_inv)%lang_Cat_inv)%lang_Cat_inv)%lang_Cat_inv.
    apply lang_hex_group_iff in H1, H2, H3, H4, H5.
    rewrite !append_cons, !append_nil_l, !split_app.
    rewrite (hex_group_no_hyphen _ _ H1), (hex_group_no_hyphen _ _ H2),
      (hex_group_no_hyphen _ _ H3), (hex_group_no_hyphen _ _ H4),
      (hex_group_no_hyphen _ _ H5).
    simpl. by rewrite H1, H2, H3, H4, H5.
  - destruct (Py.split "-" s) as [|g1 [|g2 [|g3 [|g4 [|g5 [|? ?]]]]]] eqn:Hs;
      try done.
    intros [[[[H1 H2]%andb_true_iff H3]%andb_true_iff H4]%andb_true_iff H5
           ]%andb_true_iff.
    apply lang_hex_group_iff in H1, H2, H3, H4, H5.
    apply split_inv in Hs as [[? _] | (s1 & -> & Hs)]; [done |].
    apply split_inv in Hs as [[? _] | (s2 & -> & Hs)]; [done |].
    apply split_inv in Hs as [[? _] | (s3 & -> & Hs)]; [done |].
    apply split_inv in Hs as [[? _] | (s4 & -> & Hs)]; [done |].
    apply split_inv in Hs as [[_ ->] | (s5 & _ & Hs)].
    + repeat (first [ apply lang_hyphen_cons | apply lang_Cat | done ]).
    + by destruct (split_not_nil "-" s5).
Qed.

(** The test of [_assert_valid_key_id] accepts the identifiers of the
    shape of the specification, and those followed by one newline. *)
Lemma valid_key_id_spec s :
  valid_key_id s = true <->
  canonical_key_id s = true
  \/ exists t, s = t +:+ String "010" EmptyString /\ canonical_key_id t = true.
Proof.
  unfold valid_key_id. rewrite match_anchored_lang, lang_key_id_pattern.
  split; (intros [H | (t & Hs & Ht)]; [by left | right; exists t]);
    by rewrite <- ?lang_key_id_pattern in *.
Qed.

Lemma malformed_key_id_iff s : malformed_key_id s <-> valid_key_id s = false.
Proof.
  unfold malformed_key_id. split.
  - intros [Hs Ht]. destruct (valid_key_id s) eqn:Hv; [|done].
    apply valid_key_id_spec in Hv as [Hv | (t & Heq & Hv)]; [congruence |].
    rewrite (Ht t Heq) in Hv. done.
  - intros Hv. split.
    + destruct (canonical_key_id s) eqn:Hc; [|done].
      rewrite <- Hv. symmetry. apply valid_key_id_spec. by left.
    + intros t Heq. destruct (canonical_key_id t) eqn:Hc; [|done].
      rewrite <- Hv. symmetry. apply valid_key_id_spec. right. eauto.
Qed.

(** ** Generated key identifiers have the accepted shape *)

Lemma hex_digit_class x :
  hex_class (Models.hex_digit (Byte.to_N x / 16)) = true /\
  hex_class (Models.hex_digit (Byte.to_N x mod 16)) = true.
Proof. destruct x; vm_compute; done. Qed.

Lemma lang_hex b :
  lang (Re.rep (2 * length b) (Re.Class hex_class)) (Models.hex b).
Proof.
  induction b as [|x b IH]; [constructor |].
  replace (2 * length (x :: b))%nat with (S (S (2 * length b))) by (simpl; lia).
  destruct (hex_digit_class x) as [H1 H2]. simpl.
  change (String ?c ?s) with (String c EmptyString +:+ s).
  constructor; [by constructor |].
  change (String ?c ?s) with (String c EmptyString +:+ s).
  constructor; [by constructor | done].
Qed.

Lemma lang_hex_group n b :
  length b = n -> lang (Re.rep (2 * n) (Re.Class hex_class)) (Models.hex b).
Proof. intros <-. apply lang_hex. Qed.

Lemma lang_hyphen s r :
  lang r s -> lang (Re.Cat (Re.lit "-") r) ("-" +:+ s).
Proof. intros H. constructor; [|done]. by constructor. Qed.

Lemma generate_key_id_valid r :
  length r = 16%nat -> valid_key_id (Models.generate_key_id r) = true.
Proof.
  intros Hr. apply match_anchored_lang. left.
  unfold Models.generate_key_id, key_id_pattern.
  apply (lang_Cat (Re.rep (2 * 4) _)); [apply lang_hex_group|];
    [rewrite length_take; lia |].
  apply lang_hyphen.
  apply (lang_Cat (Re.rep (2 * 2) _)); [apply lang_hex_group|];
    [rewrite length_take, length_drop; lia |].
  apply lang_hyphen.
  apply (lang_Cat (Re.rep (2 * 2) _)); [apply lang_hex_group|];
    [rewrite length_take, length_drop; lia |].
  apply lang_hyphen.
  apply (lang_Cat (Re.rep (2 * 2) _)); [apply lang_hex_group|];
    [rewrite length_take, length_drop; lia |].
  apply lang_hyphen.
  apply (lang_hex_group 6). rewrite length_take, length_drop. lia.
Qed.

Lemma urandom_length n s : length (fst (Models.urandom n s)) = n.
Proof. unfold Models.urandom. simpl. by rewrite length_map, length_seq. Qed.

(** ** Invariants of the modelled backend *)

Lemma in_list_In x l : Py.in_list x l = true <-> In x l.
Proof.
  unfold Py.in_list. rewrite existsb_exists. split.
  - intros (y & Hy & ->%String.eqb_eq). done.
  - intros H. exists x. split; [done | apply String.eqb_refl].
Qed.

Section ModelInvariants.

Context {F : Models.EnvelopeFormat}.
Variable key_spec_bytes : option string -> nat.
Variable region : string.

Lemma registry_wf_insert s s' key_id k :
  registry_wf s ->
  Models.keys s' = <[key_id := k]> (Models.keys s) ->
  Models.id k = key_id -> valid_key_id key_id = true ->
  registry_wf s'.
Proof.
  intros Hwf Hkeys Hid Hv i k'. rewrite Hkeys, lookup_insert.
  case_decide as Hi.
  - intros [= <-]. by subst.
  - apply Hwf.
Qed.

Lemma registry_wf_same s s' :
  registry_wf s -> Models.keys s' = Models.keys s -> registry_wf s'.
Proof. intros Hwf Hkeys i k. rewrite Hkeys. apply Hwf. Qed.

Lemma handle_preserves_registry_wf r s :
  registry_wf s ->
  registry_wf
    (snd (KmsResponse.handle (Models.kms_backend key_spec_bytes) region r s)).
Proof.
  intros Hwf.
  destruct r; run_handler; split_tests; simpl in *; try done.
  - (* create_key *)
    unfold Models.create_key, Models.urandom in *. simplify_eq/=.
    eapply registry_wf_insert; [done | done | done |].
    by apply generate_key_id_valid.
  - (* enable_key_rotation *)
    unfold Models.enable_key_rotation in *.
    destruct (Models.keys s !! key_id) as [k|] eqn:Hk; simplify_eq/=.
    destruct (Hwf _ _ Hk). by eapply registry_wf_insert.
  - unfold Models.disable_key_rotation in *.
    destruct (Models.keys s !! key_id) as [k|] eqn:Hk; simplify_eq/=.
    destruct (Hwf _ _ Hk). by eapply registry_wf_insert.
  - unfold Models.put_key_policy in *.
    destruct (Models.keys s !! key_id) as [k|] eqn:Hk; simplify_eq/=.
    destruct (Hwf _ _ Hk). by eapply registry_wf_insert.
  - (* generate_data_key *)
    unfold Models.generate_data_key, Models.urandom in *. simplify_eq/=.
    by eapply registry_wf_same.
Qed.

Lemma registered_alias_add s target alias_name a :
  registered_alias a (Models.add_alias target alias_name s) ->
  a = alias_name \/ registered_alias a s.
Proof.
  intros (t & S & Ht & Ha). unfold Models.add_alias, Models.set_aliases in Ht.
  simpl in Ht. rewrite lookup_insert in Ht. case_decide as Heq.
  - simplify_eq. apply elem_of_union in Ha as [Ha | Ha%elem_of_singleton];
      [|by left].
    right. destruct (Models.key_to_aliases s !! t) as [S0|] eqn:HS0; simpl in Ha.
    + by exists t, S0.
    + by apply not_elem_of_empty in Ha.
  - right. by exists t, S.
Qed.

Lemma registered_alias_delete s alias_name a :
  registered_alias a (Models.delete_alias alias_name s) -> registered_alias a s.
Proof.
  intros (t & S & Ht & Ha). unfold Models.delete_alias, Models.set_aliases in Ht.
  simpl in Ht. rewrite lookup_fmap in Ht.
  destruct (Models.key_to_aliases s !! t) as [S0|] eqn:HS0; simplify_eq/=.
  apply elem_of_difference in Ha as [Ha _]. by exists t, S0.
Qed.

(** Whatever alias a request leaves in the index was there before, or is
    not a reserved one. *)
Lemma handle_registered_alias r s a :
  registered_alias a
    (snd (KmsResponse.handle (Models.kms_backend key_spec_bytes) region r s)) ->
  registered_alias a s \/ ~ In a reserved_aliases.
Proof.
  destruct r; run_handler; split_tests; simpl in *; auto.
  - unfold Models.create_key, Models.urandom in *. simplify_eq/=. auto.
  - intros [-> | H]%registered_alias_add; [right | by left].
    intros Hin.
    assert (Py.in_list alias_name reserved_aliases = true)
      by (by apply in_list_In).
    congruence.
  - intros H%registered_alias_delete. by left.
  - unfold Models.enable_key_rotation in *.
    destruct (Models.keys s !! key_id); simplify_eq/=. auto.
  - unfold Models.disable_key_rotation in *.
    destruct (Models.keys s !! key_id); simplify_eq/=. auto.
  - unfold Models.put_key_policy in *.
    destruct (Models.keys s !! key_id); simplify_eq/=. auto.
  - unfold Models.generate_data_key, Models.urandom in *. simplify_eq/=. auto.
Qed.

Lemma reachable_registry_wf tape s :
  reachable key_spec_bytes region tape s -> registry_wf s.
Proof.
  induction 1 as [|s r _ IH].
  - intros i k. unfold Models.initial. simpl. by rewrite lookup_empty.
  - by apply handle_preserves_registry_wf.
Qed.

Lemma reachable_no_reserved_alias tape s a :
  reachable key_spec_bytes region tape s ->
  In a reserved_aliases -> ~ registered_alias a s.
Proof.
  intros Hreach Hin. induction Hreach as [|s r _ IH].
  - intros (t & S & Ht & _). unfold Models.initial in Ht. simpl in Ht.
    by rewrite lookup_empty in Ht.
  - intros [H | H]%handle_registered_alias; auto.
Qed.

End ModelInvariants.

Lemma alias_exists_registered `{F : Models.EnvelopeFormat} a s :
  Models.alias_exists a s = true <-> registered_alias a s.
Proof.
  unfold Models.alias_exists, registered_alias, map_Exists.
  rewrite bool_decide_eq_true. done.
Qed.

Lemma alias_exists_not_registered `{F : Models.EnvelopeFormat} a s :
  Models.alias_exists a s = false <-> ~ registered_alias a s.
Proof.
  rewrite <- alias_exists_registered. by destruct (Models.alias_exists a s).
Qed.

(** ** The scenario *)

Lemma example_s1_keys : Models.keys Example.s1 = {[ Models.id Example.K := Example.K ]}.
Proof. vm_compute. reflexivity. Qed.

Lemma example_s1_reachable :
  reachable Framed.key_spec_bytes Example.region Framed.tape Example.s1.
Proof. apply reachable_handle, reachable_initial. Qed.

(* ===================================================================== *)
(** * The claims *)
(* ===================================================================== *)

(** ** Failures leave the state as it was *)

(** C7. Whatever the backend, every request ends in one of two ways: a
    reply with a body (success), or exactly one failure of a kind of
    section 7 -- a raised exception, or the 404 reply of [describe_key] --
    and then the state is the state the request started in.  In
    [create_alias] and [delete_alias] in particular every check comes before
    the one update. *)
Theorem failure_leaves_state_unchanged
    (B : Backend.t) (region : string) (r : KmsResponse.request) (s : Backend.St B) :
  let o := fst (KmsResponse.handle B region r s) in
  let s' := snd (KmsResponse.handle B region r s) in
  (KmsResponse.failure_of o = None /\ exists j, o = Return (Body j))
  \/ (exists k, KmsResponse.failure_of o = Some (Some k) /\ s' = s).
Proof.
  destruct r; run_handler; split_tests; simpl;
    solve [ left; eauto | right; eauto ].
Qed.

(** ** The key identifier in the reply of [generate_data_key] *)

(** C10. Whatever the backend, the [KeyId] entry of a reply of
    [generate_data_key] is the caller's [key_id] as it was supplied, and the
    reply and the state do not depend on the key identifier that the backend
    returns: replacing that identifier by any other changes nothing. *)
Theorem generate_data_key_echoes_key_id
    (B : Backend.t) (key_id : string) (key_spec : option string)
    (number_of_bytes : option Z) (c : context) (s : Backend.St B) :
  (forall j s',
     KmsResponse.generate_data_key B key_id key_spec number_of_bytes c s
       = (Return (Body j), s') ->
     json_get "KeyId" j = Some (JStr key_id))
  /\ (forall f : string -> string,
        KmsResponse.generate_data_key (Backend.with_returned_key_id f B)
          key_id key_spec number_of_bytes c s
        = KmsResponse.generate_data_key B key_id key_spec number_of_bytes c s).
Proof.
  split.
  - intros j s'. run_handler. split_tests; [done |].
    by intros [= <- <-].
  - intros f. run_handler. simpl.
    destruct (negb (valid_key_id (_parse_key_id key_id))); [done |]. reduce.
    by destruct (Backend.generate_data_key B key_id key_spec number_of_bytes c s)
      as [[[? ?] ?] ?].
Qed.

(** In the scenario the backend resolves the ARN of [K] to its identifier,
    and the reply carries the ARN. *)
Lemma generate_data_key_echoes_key_id_witness :
  fst (fst (Backend.generate_data_key Example.B (Models.arn Example.K) None
              (Some 2) None Example.s1)) =
    ([x10; x11], Models.id Example.K)
  /\ json_get "KeyId"
       (JObj [("CiphertextBlob",
               JB64 (Models.seal (Models.id Example.K) None [x10; x11]));
              ("KeyId", JStr (Models.arn Example.K));
              ("Plaintext", JB64 [x10; x11])])
     = Some (JStr (Models.arn Example.K)).
Proof.
  split; [vm_compute; reflexivity |].
  apply (proj1 (generate_data_key_echoes_key_id Example.B (Models.arn Example.K)
                  None (Some 2) None Example.s1)
           _ (snd (Models.urandom 2 Example.s1))).
  vm_compute. reflexivity.
Defined.

(** ** The shape check of key identifiers *)

(** What the shape check refuses, whatever the backend:
    [enable_key_rotation], [disable_key_rotation],
    [get_key_rotation_status], [put_key_policy], [get_key_policy] and
    [list_key_policies] test the caller's identifier, and [encrypt] and
    [generate_data_key] test the identifier resolved by [_parse_key_id],
    before any call of the backend: an identifier that has not the shape of
    the specification, also when a newline at its end is left aside, fails
    with the [NotFoundException] [' Invalid keyId'] in the state as it was. *)
Lemma malformed_key_id_is_refused
    (B : Backend.t) (region : string) (key_id : string) (s : Backend.St B) :
  (malformed_key_id key_id ->
     KmsResponse.enable_key_rotation B region key_id s = (Raise invalid_key_id_error, s)
     /\ KmsResponse.disable_key_rotation B region key_id s
        = (Raise invalid_key_id_error, s)
     /\ KmsResponse.get_key_rotation_status B region key_id s
        = (Raise invalid_key_id_error, s)
     /\ (forall policy_name policy,
           KmsResponse.put_key_policy B region key_id policy_name policy s
           = (Raise invalid_key_id_error, s))
     /\ (forall policy_name,
           KmsResponse.get_key_policy B region key_id policy_name s
           = (Raise invalid_key_id_error, s))
     /\ KmsResponse.list_key_policies B region key_id s
        = (Raise invalid_key_id_error, s))
  /\ (malformed_key_id (_parse_key_id key_id) ->
        (forall plaintext c,
           KmsResponse.encrypt B key_id plaintext c s = (Raise invalid_key_id_error, s))
        /\ (forall key_spec number_of_bytes c,
              KmsResponse.generate_data_key B key_id key_spec number_of_bytes c s
              = (Raise invalid_key_id_error, s)))
  /\ kind_of invalid_key_id_error = Some NotFound.
Proof.
  split; [|split].
  - intros Hv%malformed_key_id_iff. run_handler. rewrite Hv. simpl. done.
  - intros Hv%malformed_key_id_iff. run_handler. rewrite Hv. simpl. done.
  - done.
Qed.

(** [describe_key] has no shape check of its own; its answer to an
    identifier that is not of the shape comes from the lookup.  On the
    modelled backend, in every state that the handlers reach, a reference
    whose resolved identifier has not the shape names no key, and the
    handler answers with the 404 reply: the outcome is NotFound here too. *)
Lemma describe_key_malformed_is_not_found `{F : Models.EnvelopeFormat}
    (key_spec_bytes : option string -> nat) (region : string)
    (tape : nat -> Byte.byte) (key_id : string) (s : Models.State) :
  reachable key_spec_bytes region tape s ->
  malformed_key_id (_parse_key_id key_id) ->
  KmsResponse.describe_key (Models.kms_backend key_spec_bytes) key_id s
    = (Return (BodyWithStatus "{}" 404), s)
  /\ KmsResponse.failure_of
       (fst (KmsResponse.describe_key (Models.kms_backend key_spec_bytes) key_id s))
     = Some (Some NotFound).
Proof.
  intros Hwf%reachable_registry_wf Hv%malformed_key_id_iff.
  assert (Models.describe_key key_id s = None) as Hnone.
  { unfold Models.describe_key, Models.get_key_id.
    destruct (Models.keys s !! _parse_key_id key_id) as [k|] eqn:Hk; [|done].
    apply Hwf in Hk as [_ Hk]. congruence. }
  run_handler. simpl. by rewrite Hnone.
Qed.

(** C3 does not hold of the code at an identifier of the canonical shape
    with one newline after it.  The claim: every operation that accepts a
    key identifier checks it against the canonical shape (5 groups of hex
    digits of lengths 8-4-4-4-12 between hyphens, in either case) before any
    registry lookup, and a malformed identifier fails with NotFound.  The
    identifier of [K] followed by a newline has not that shape, yet the
    anchor [$] in the pattern of [_assert_valid_key_id] matches before a
    newline at the end, so the check lets it through.  Whatever the backend,
    none of the eight handlers that make the check raises its
    [' Invalid keyId']: [enable_key_rotation] goes on to the lookup of the
    backend and answers as the lookup decides, and [encrypt] and
    [generate_data_key] hand the identifier to the backend and reply with
    what it returns, which is no failure at all.  In the scenario [encrypt]
    and [generate_data_key] succeed with the malformed identifier as
    [KeyId], and the ciphertext that [encrypt] returns cannot be decrypted,
    being sealed under an identifier that names no key. *)
Theorem shape_check_lets_trailing_newline_through :
  canonical_key_id Example.K_id_newline = false
  /\ _parse_key_id Example.K_id_newline = Example.K_id_newline
  /\ valid_key_id Example.K_id_newline = true
  /\ (forall (B : Backend.t) (region : string) (s : Backend.St B),
        fst (KmsResponse.enable_key_rotation B region Example.K_id_newline s)
          <> Raise invalid_key_id_error
        /\ fst (KmsResponse.disable_key_rotation B region Example.K_id_newline s)
             <> Raise invalid_key_id_error
        /\ fst (KmsResponse.get_key_rotation_status B region Example.K_id_newline s)
             <> Raise invalid_key_id_error
        /\ (forall policy_name policy,
              fst (KmsResponse.put_key_policy B region Example.K_id_newline
                     policy_name policy s)
                <> Raise invalid_key_id_error)
        /\ (forall policy_name,
              fst (KmsResponse.get_key_policy B region Example.K_id_newline
                     policy_name s)
                <> Raise invalid_key_id_error)
        /\ fst (KmsResponse.list_key_policies B region Example.K_id_newline s)
             <> Raise invalid_key_id_error
        /\ KmsResponse.enable_key_rotation B region Example.K_id_newline s
           = match Backend.enable_key_rotation B Example.K_id_newline s with
             | Some s' => (Return (Body JNull), s')
             | None =>
                 (Raise (KmsResponse.key_does_not_exist_error region
                           Example.K_id_newline), s)
             end
        /\ (forall plaintext c,
              KmsResponse.encrypt B Example.K_id_newline plaintext c s
              = (Return (Body (JObj
                   [ ("CiphertextBlob",
                      JB64 (snd (Backend.encrypt B Example.K_id_newline plaintext c s)));
                     ("KeyId",
                      JStr (fst (Backend.encrypt B Example.K_id_newline
                                   plaintext c s))) ])), s))
        /\ (forall key_spec number_of_bytes c,
              KmsResponse.failure_of
                (fst (KmsResponse.generate_data_key B Example.K_id_newline
                        key_spec number_of_bytes c s)) = None))
  /\ KmsResponse.encrypt Example.B Example.K_id_newline Example.hello
       Example.ctx_a Example.s1
     = (Return (Body (JObj
          [ ("CiphertextBlob",
             JB64 (Models.seal Example.K_id_newline Example.ctx_a Example.hello));
            ("KeyId", JStr Example.K_id_newline) ])), Example.s1)
  /\ KmsResponse.decrypt Example.B
       (Models.seal Example.K_id_newline Example.ctx_a Example.hello)
       Example.ctx_a Example.s1
     = (Raise KmsResponse.invalid_ciphertext_error, Example.s1)
  /\ KmsResponse.generate_data_key Example.B Example.K_id_newline None (Some 2)
       None Example.s1
     = (Return (Body (JObj
          [ ("CiphertextBlob",
             JB64 (Models.seal Example.K_id_newline None [x10; x11]));
            ("KeyId", JStr Example.K_id_newline);
            ("Plaintext", JB64 [x10; x11]) ])),
        snd (Models.urandom 2 Example.s1))
  /\ KmsResponse.enable_key_rotation Example.B Example.region
       Example.K_id_newline Example.s1
     = (Raise (KmsResponse.key_does_not_exist_error Example.region
                 Example.K_id_newline), Example.s1).
Proof.
  assert (valid_key_id Example.K_id_newline = true) as Hv
    by (vm_compute; reflexivity).
  assert (_parse_key_id Example.K_id_newline = Example.K_id_newline) as Hp
    by (vm_compute; reflexivity).
  split; [vm_compute; reflexivity |].
  split; [exact Hp |]. split; [exact Hv |].
  split; [| repeat split; vm_compute; reflexivity].
  intros B region s.
  repeat split; intros; run_handler; rewrite ?Hp, Hv; simpl.
  - by destruct (Backend.enable_key_rotation B Example.K_id_newline s).
  - by destruct (Backend.disable_key_rotation B Example.K_id_newline s).
  - by destruct (Backend.get_key_rotation_status B Example.K_id_newline s).
  - destruct (bool_decide (policy_name = Some "default")); simpl; [|done].
    by destruct (Backend.put_key_policy B Example.K_id_newline policy s).
  - destruct (bool_decide (policy_name = Some "default")); simpl; [|done].
    by destruct (Backend.get_key_policy B Example.K_id_newline s).
  - by destruct (Backend.describe_key B Example.K_id_newline s).
  - by destruct (Backend.enable_key_rotation B Example.K_id_newline s).
  - by destruct (Backend.encrypt B Example.K_id_newline plaintext c s).
  - by destruct (Backend.generate_data_key B Example.K_id_newline key_spec
                   number_of_bytes c s) as [[[? ?] ?] ?].
Qed.

(** ** Policy names *)

(** C6. Whatever the backend and the key identifier: for a policy name
    other than ["default"], [get_key_policy] and [put_key_policy] fail with
    an exception of kind NotFound in the state as it was -- for an
    identifier of the accepted shape, so for every existing key, that
    exception is ['No such policy exists'].  For an identifier of the
    accepted shape that the backend finds, [list_key_policies] returns the
    list [["default"]]. *)
Theorem only_the_default_policy
    (B : Backend.t) (region : string) (key_id : string) (s : Backend.St B) :
  (forall policy_name, policy_name <> Some "default" ->
     let e := if valid_key_id key_id then no_such_policy_error
              else invalid_key_id_error in
     kind_of e = Some NotFound
     /\ KmsResponse.get_key_policy B region key_id policy_name s = (Raise e, s)
     /\ forall policy,
          KmsResponse.put_key_policy B region key_id policy_name policy s
          = (Raise e, s))
  /\ (valid_key_id key_id = true -> is_Some (Backend.describe_key B key_id s) ->
        KmsResponse.list_key_policies B region key_id s
        = (Return (Body (JObj [ ("Truncated", JBool false);
                                ("PolicyNames", JArr [ JStr "default" ]) ])), s)).
Proof.
  split.
  - intros policy_name Hne. run_handler.
    destruct (valid_key_id key_id); simpl.
    + rewrite bool_decide_eq_false_2 by done. done.
    + done.
  - intros Hv [key Hkey]. run_handler. rewrite Hv. simpl. by rewrite Hkey.
Qed.

Lemma only_the_default_policy_witness :
  KmsResponse.get_key_policy Example.B Example.region (Models.id Example.K)
    (Some "other") Example.s1
  = (Raise no_such_policy_error, Example.s1)
  /\ KmsResponse.list_key_policies Example.B Example.region (Models.id Example.K)
       Example.s1
     = (Return (Body (JObj [ ("Truncated", JBool false);
                             ("PolicyNames", JArr [ JStr "default" ]) ])),
        Example.s1).
Proof.
  pose proof (only_the_default_policy Example.B Example.region
                (Models.id Example.K) Example.s1) as [H1 H2].
  split.
  - assert (Some "other" <> Some "default") as Hne by discriminate.
    exact (proj1 (proj2 (H1 (Some "other") Hne))).
  - apply H2; [vm_compute; reflexivity |].
    exists Example.K. vm_compute. reflexivity.
Defined.

(** ** Alias creation *)



(** ** Reserved aliases *)

Lemma reserved_alias_startswith alias_name :
  In alias_name reserved_aliases -> Py.startswith alias_name "alias/" = true.
Proof. intros [<-|[<-|[<-|[<-|[]]]]]; reflexivity. Qed.

(** Whatever the backend, a reserved name is refused as not authorized. *)
Lemma create_alias_reserved
    (B : Backend.t) (region alias_name target_key_id : string) (s : Backend.St B) :
  In alias_name reserved_aliases ->
  KmsResponse.create_alias B region alias_name target_key_id s
  = (Raise (JSONResponseError 400 "Bad Request"
              (ErrBody None "NotAuthorizedException")), s).
Proof.
  intros Hin. run_handler.
  rewrite (reserved_alias_startswith _ Hin). simpl.
  by rewrite (proj2 (in_list_In _ _) Hin).
Qed.

(** Whatever the backend, the list of aliases starts with the reserved
    ones. *)
Lemma list_aliases_reserved
    (B : Backend.t) (region alias_name : string) (s : Backend.St B) :
  In alias_name reserved_aliases ->
  exists j aliases,
    KmsResponse.list_aliases B region s = (Return (Body j), s)
    /\ json_get "Aliases" j = Some (JArr aliases)
    /\ In (JObj [ ("AliasArn", JStr (KmsResponse.alias_arn region alias_name));
                  ("AliasName", JStr alias_name) ]) aliases.
Proof.
  intros Hin. run_handler. reduce.
  eexists _, _. split; [reflexivity |]. split; [reflexivity |].
  apply in_or_app. left.
  apply (in_map (fun a => JObj [ ("AliasArn", JStr (KmsResponse.alias_arn region a));
                                 ("AliasName", JStr a) ])).
  done.
Qed.

(** C4. For a reserved alias name and any target, in any state,
    [create_alias] fails as not authorized and changes nothing; in any state
    the reply of [list_aliases] lists the name; and in no state that a
    region goes through is the name in the alias index. *)
Theorem reserved_aliases_are_synthetic
    `{F : Models.EnvelopeFormat} (key_spec_bytes : option string -> nat)
    (region : string) (tape : nat -> Byte.byte)
    (alias_name : string) (s : Models.State) :
  let B := Models.kms_backend key_spec_bytes in
  In alias_name reserved_aliases ->
  (forall target_key_id,
     exists e,
       KmsResponse.create_alias B region alias_name target_key_id s = (Raise e, s)
       /\ kind_of e = Some NotAuthorized)
  /\ (exists j aliases,
        KmsResponse.list_aliases B region s = (Return (Body j), s)
        /\ json_get "Aliases" j = Some (JArr aliases)
        /\ In (JObj [ ("AliasArn", JStr (KmsResponse.alias_arn region alias_name));
                      ("AliasName", JStr alias_name) ]) aliases)
  /\ (reachable key_spec_bytes region tape s -> ~ registered_alias alias_name s).
Proof.
  intros B Hin. split; [|split].
  - intros target_key_id. eexists. split; [by apply create_alias_reserved | done].
  - by apply list_aliases_reserved.
  - intros Hreach. by eapply reachable_no_reserved_alias.
Qed.

Lemma reserved_aliases_are_synthetic_witness :
  (exists e,
     KmsResponse.create_alias Example.B Example.region "alias/aws/s3"
       (Models.id Example.K) Example.s1 = (Raise e, Example.s1)
     /\ kind_of e = Some NotAuthorized)
  /\ ~ registered_alias "alias/aws/s3" Example.s1.
Proof.
  assert (In "alias/aws/s3" reserved_aliases) as Hin by (simpl; auto).
  destruct (reserved_aliases_are_synthetic Framed.key_spec_bytes Example.region
              Framed.tape "alias/aws/s3" Example.s1 Hin) as (H1 & _ & H3).
  split; [apply H1 | apply H3, example_s1_reachable].
Defined.

(** C9. For an alias name that passes the four checks on the name and is
    not registered, and a target that is not a registered alias name,
    [create_alias] succeeds and files the name under the target -- nothing
    is asked of the key registry, so also when the target names no key. *)
Theorem create_alias_accepts_unknown_target
    `{F : Models.EnvelopeFormat} (key_spec_bytes : option string -> nat)
    (region alias_name target_key_id : string) (s : Models.State) :
  let B := Models.kms_backend key_spec_bytes in
  Py.startswith alias_name "alias/" = true ->
  Py.in_list alias_name reserved_aliases = false ->
  Py.contains ":" alias_name = false ->
  Re.match_anchored alias_name_pattern alias_name = true ->
  ~ registered_alias alias_name s ->
  ~ registered_alias target_key_id s ->
  let s' := Models.add_alias target_key_id alias_name s in
  KmsResponse.create_alias B region alias_name target_key_id s
  = (Return (Body JNull), s')
  /\ (exists aliases,
        Models.key_to_aliases s' !! target_key_id = Some aliases
        /\ alias_name ∈ aliases)
  /\ Models.keys s' = Models.keys s.
Proof.
  intros B H1 H2 H3 H4 Hname%alias_exists_not_registered
    Htarget%alias_exists_not_registered s'.
  split; [|split].
  - subst B. run_handler. rewrite H1, H2, H3, H4. simpl.
    by rewrite Htarget, Hname.
  - subst s'. unfold Models.add_alias, Models.set_aliases. simpl.
    eexists. rewrite lookup_insert_eq. split; [done |].
    apply elem_of_union_r. by apply elem_of_singleton.
  - done.
Qed.

Lemma create_alias_accepts_unknown_target_witness :
  Models.keys Example.s0 !! "not-a-key" = None
  /\ KmsResponse.create_alias Example.B Example.region "alias/test" "not-a-key"
       Example.s0
     = (Return (Body JNull), Models.add_alias "not-a-key" "alias/test" Example.s0).
Proof.
  split; [reflexivity |].
  apply (create_alias_accepts_unknown_target Framed.key_spec_bytes Example.region
           "alias/test" "not-a-key" Example.s0); try reflexivity.
  - intros (t & S & Ht & _). vm_compute in Ht. discriminate.
  - intros (t & S & Ht & _). vm_compute in Ht. discriminate.
Defined.

(** ** Encryption and decryption *)

Section Envelope.

Context `{F : Models.EnvelopeFormat} (L : Models.EnvelopeLaws F).
Variable key_spec_bytes : option string -> nat.

(** What [decrypt] answers, by what the byte string is. *)
Lemma decrypt_sealed s key_id c p c2 :
  KmsResponse.decrypt (Models.kms_backend key_spec_bytes) (Models.seal key_id c p) c2 s =
  if bool_decide (is_Some (Models.keys s !! key_id) /\ c = c2)
  then (Return (Body (JObj [ ("KeyId", JStr key_id);
                             ("Plaintext", JB64 p) ])), s)
  else (Raise KmsResponse.invalid_ciphertext_error, s).
Proof.
  case_bool_decide as H; run_handler; simpl; unfold Models.decrypt;
    rewrite Models.unseal_seal; simpl.
  - destruct H as [[k Hk] <-]. rewrite Hk. simpl. by rewrite decide_True.
  - destruct (Models.keys s !! key_id) as [k|] eqn:Hk; simpl; [|done].
    case_decide as Hc; [|done]. destruct H. eauto.
Qed.

Lemma decrypt_not_sealed s ciphertext c :
  (forall key_id p,
     is_Some (Models.keys s !! key_id) -> ciphertext <> Models.seal key_id c p) ->
  KmsResponse.decrypt (Models.kms_backend key_spec_bytes) ciphertext c s
  = (Raise KmsResponse.invalid_ciphertext_error, s).
Proof.
  intros Hforeign. run_handler. simpl. unfold Models.decrypt.
  destruct (Models.unseal ciphertext) as [[[key_id c'] p]|] eqn:Hu; simpl; [|done].
  apply Models.seal_unseal in Hu.
  destruct (Models.keys s !! key_id) as [k|] eqn:Hk; simpl; [|done].
  case_decide as Hc; [|done]. subst c'.
  destruct (Hforeign key_id p); [by eexists | done].
Qed.

End Envelope.

(** C1. In a state that a region goes through, for a key [k] of the
    registry, a reference [key_ref] that resolves to it (its identifier, or
    its ARN), a plaintext [p] and an encryption context [c]: [encrypt]
    replies with the identifier of [k] and a ciphertext; [decrypt] of that
    ciphertext with [c] replies with the identifier of [k] and [p]; and
    [decrypt] of it with any other context fails with an exception of kind
    InvalidCiphertext. *)
Theorem decrypt_encrypt_round_trip
    `{F : Models.EnvelopeFormat} (L : Models.EnvelopeLaws F)
    (key_spec_bytes : option string -> nat) (region : string)
    (tape : nat -> Byte.byte) (s : Models.State) (k : Models.Key)
    (key_ref : string) (p : bytes) (c : context) :
  let B := Models.kms_backend key_spec_bytes in
  reachable key_spec_bytes region tape s ->
  Models.keys s !! Models.id k = Some k ->
  key_ref = Models.id k \/ key_ref = Models.arn k
    \/ _parse_key_id key_ref = Models.id k ->
  exists ciphertext,
    KmsResponse.encrypt B key_ref p c s
    = (Return (Body (JObj [ ("CiphertextBlob", JB64 ciphertext);
                            ("KeyId", JStr (Models.id k)) ])), s)
    /\ KmsResponse.decrypt B ciphertext c s
       = (Return (Body (JObj [ ("KeyId", JStr (Models.id k));
                               ("Plaintext", JB64 p) ])), s)
    /\ (forall c2, c2 <> c ->
          KmsResponse.decrypt B ciphertext c2 s
          = (Raise KmsResponse.invalid_ciphertext_error, s))
    /\ kind_of KmsResponse.invalid_ciphertext_error = Some InvalidCiphertext.
Proof.
  intros B Hreach Hk Href.
  destruct (reachable_registry_wf _ _ _ _ Hreach _ _ Hk) as [_ Hv].
  assert (_parse_key_id key_ref = Models.id k) as Hparse.
  { destruct Href as [-> | [-> | H]]; [|  | done].
    - by apply parse_key_id_valid.
    - by apply parse_key_id_models_arn. }
  exists (Models.seal (Models.id k) c p). split; [|split; [|split]].
  - subst B. run_handler. rewrite Hparse, Hv. simpl.
    unfold Models.encrypt, Models.get_key_id. by rewrite Hparse.
  - subst B. rewrite (decrypt_sealed L).
    rewrite bool_decide_eq_true_2; [done | eauto].
  - intros c2 Hne. subst B. rewrite (decrypt_sealed L).
    rewrite bool_decide_eq_false_2; [done |]. by intros [_ ?].
  - done.
Qed.

(** The scenario of section 8, with the key referred to by its ARN. *)
Lemma decrypt_encrypt_round_trip_witness :
  exists ciphertext,
    KmsResponse.encrypt Example.B (Models.arn Example.K) Example.hello
      Example.ctx_a Example.s1
    = (Return (Body (JObj [ ("CiphertextBlob", JB64 ciphertext);
                            ("KeyId", JStr (Models.id Example.K)) ])), Example.s1)
    /\ KmsResponse.decrypt Example.B ciphertext Example.ctx_a Example.s1
       = (Return (Body (JObj [ ("KeyId", JStr (Models.id Example.K));
                               ("Plaintext", JB64 Example.hello) ])), Example.s1)
    /\ KmsResponse.decrypt Example.B ciphertext Example.ctx_b Example.s1
       = (Raise KmsResponse.invalid_ciphertext_error, Example.s1).
Proof.
  destruct (decrypt_encrypt_round_trip framed_laws Framed.key_spec_bytes
              Example.region Framed.tape Example.s1 Example.K
              (Models.arn Example.K) Example.hello Example.ctx_a)
    as (ciphertext & H1 & H2 & H3 & _).
  - apply example_s1_reachable.
  - vm_compute. reflexivity.
  - right. left. reflexivity.
  - exists ciphertext. split; [exact H1 | split; [exact H2 |]].
    apply H3. intros H. apply (f_equal (fun c => c ≫= (.!! "ctx"))) in H.
    vm_compute in H. discriminate.
Defined.

(** C5. A byte string that is not the ciphertext that [encrypt] produces
    under the supplied context for some plaintext and some key of the
    registry -- one that is no envelope at all, the envelope of another
    format or of a key that is not registered, or an envelope sealed with
    another context -- makes [decrypt] fail with the exception of type
    [InvalidCiphertextException], whose kind is InvalidCiphertext and not
    NotFound, in the state as it was. *)
Theorem decrypt_rejects_invalid_ciphertext
    `{F : Models.EnvelopeFormat} (L : Models.EnvelopeLaws F)
    (key_spec_bytes : option string -> nat)
    (s : Models.State) (ciphertext : bytes) (c : context) :
  let B := Models.kms_backend key_spec_bytes in
  (Models.unseal ciphertext = None
   \/ (exists key_id c' p, ciphertext = Models.seal key_id c' p /\ c' <> c)
   \/ (forall key_id p,
         is_Some (Models.keys s !! key_id) -> ciphertext <> Models.seal key_id c p)) ->
  KmsResponse.decrypt B ciphertext c s
  = (Raise KmsResponse.invalid_ciphertext_error, s)
  /\ kind_of KmsResponse.invalid_ciphertext_error = Some InvalidCiphertext
  /\ kind_of KmsResponse.invalid_ciphertext_error <> Some NotFound.
Proof.
  intros B H. split; [|done].
  apply (decrypt_not_sealed L). intros key_id p Hk ->.
  destruct H as [H | [(key_id' & c' & p' & H & Hne) | H]].
  - by rewrite Models.unseal_seal in H.
  - apply (f_equal Models.unseal) in H. rewrite !Models.unseal_seal in H.
    congruence.
  - by apply (H key_id p).
Qed.

(** In the scenario the two bytes ["hi"] are no envelope. *)
Lemma decrypt_rejects_invalid_ciphertext_witness :
  Models.unseal (Py.encode "hi") = None
  /\ KmsResponse.decrypt Example.B (Py.encode "hi") Example.ctx_a Example.s1
     = (Raise KmsResponse.invalid_ciphertext_error, Example.s1).
Proof.
  assert (Models.unseal (Py.encode "hi") = None) as H by reflexivity.
  split; [exact H |].
  apply (decrypt_rejects_invalid_ciphertext framed_laws Framed.key_spec_bytes
           Example.s1 (Py.encode "hi") Example.ctx_a).
  left. exact H.
Defined.

(** C8. [encrypt] resolves the key reference with [_parse_key_id] first:
    the shape check is made on the resolved identifier, and when it passes
    the envelope is sealed for the resolved identifier, which is the
    [KeyId] of the reply.  An identifier of the accepted shape resolves to
    itself, and a reference in ARN form that ends in [:key/] and such an
    identifier resolves to that identifier. *)
Theorem encrypt_resolves_key_reference
    `{F : Models.EnvelopeFormat} (key_spec_bytes : option string -> nat)
    (s : Models.State) (key_ref : string) (p : bytes) (c : context) :
  let B := Models.kms_backend key_spec_bytes in
  let key_id := _parse_key_id key_ref in
  (valid_key_id key_id = false ->
     KmsResponse.encrypt B key_ref p c s = (Raise invalid_key_id_error, s))
  /\ (valid_key_id key_id = true ->
        KmsResponse.encrypt B key_ref p c s
        = (Return (Body (JObj [ ("CiphertextBlob", JB64 (Models.seal key_id c p));
                                ("KeyId", JStr key_id) ])), s))
  /\ (forall id, valid_key_id id = true ->
        _parse_key_id id = id
        /\ forall prefix, Py.contains "arn" prefix = true ->
             _parse_key_id (prefix +:+ ":key/" +:+ id) = id).
Proof.
  intros B key_id. subst B key_id. split; [|split].
  - intros Hv. run_handler. by rewrite Hv.
  - intros Hv. run_handler. by rewrite Hv.
  - intros id Hv. split; [by apply parse_key_id_valid |].
    intros prefix Hp. by apply parse_key_id_arn.
Qed.

Lemma encrypt_resolves_key_reference_witness :
  valid_key_id (_parse_key_id (Models.arn Example.K)) = true
  /\ KmsResponse.encrypt Example.B (Models.arn Example.K) Example.hello
       Example.ctx_a Example.s1
     = (Return (Body (JObj [ ("CiphertextBlob",
                              JB64 (Models.seal (_parse_key_id (Models.arn Example.K))
                                      Example.ctx_a Example.hello));
                             ("KeyId", JStr (_parse_key_id (Models.arn Example.K))) ])),
        Example.s1)
  /\ _parse_key_id (Models.arn Example.K) = Models.id Example.K.
Proof.
  assert (valid_key_id (_parse_key_id (Models.arn Example.K)) = true) as H
    by (vm_compute; reflexivity).
  split; [exact H | split].
  - exact (proj1 (proj2 (encrypt_resolves_key_reference Framed.key_spec_bytes
                           Example.s1 (Models.arn Example.K) Example.hello
                           Example.ctx_a)) H).
  - vm_compute. reflexivity.
Defined.

(* ===================================================================== *)
(** * Further properties of the handlers and helpers *)
(* ===================================================================== *)

(** ** [_parse_key_id] *)

Lemma contains_app_r sub a b :
  Py.contains sub b = true -> Py.contains sub (a +:+ b) = true.
Proof.
  intros H. induction a as [|c a IH]; [done |].
  rewrite append_cons, contains_cons, IH. apply orb_true_r.
Qed.

Lemma last_cons_not_nil (x : string) (l : list string) :
  l <> [] -> List.last (x :: l) EmptyString = List.last l EmptyString.
Proof. by destruct l. Qed.

(** The last field of a split is the suffix behind the last separator. *)
Lemma last_split_suffix sep s :
  exists prefix,
    s = prefix +:+ Py.last (Py.split sep s)
    /\ Py.contains (String sep EmptyString) (Py.last (Py.split sep s)) = false
    /\ (prefix = EmptyString
        \/ exists p, prefix = p +:+ String sep EmptyString).
Proof.
  unfold Py.last. induction s as [|c s (prefix & Hs & Hno & Hpre)].
  - exists EmptyString. auto.
  - rewrite split_cons. pose proof (split_not_nil sep s) as Hne.
    destruct (Ascii.eqb_spec c sep) as [->|Hc].
    + rewrite last_cons_not_nil by done.
      exists (String sep prefix). split; [by rewrite append_cons, <- Hs |].
      split; [done |]. right.
      destruct Hpre as [-> | [p ->]]; [by exists EmptyString |].
      exists (String sep p). by rewrite append_cons.
    + destruct (Py.split sep s) as [|h t] eqn:Hsplit; [done |].
      destruct t as [|h' t].
      * apply split_inv in Hsplit as [[_ ->] | (s' & _ & Hs')];
          [|by destruct (split_not_nil sep s')].
        cbn [List.last] in *. exists EmptyString. split; [done |].
        split; [|by left].
        rewrite contains_cons, Hno. simpl.
        destruct (ascii_dec sep c); [congruence | done].
      * rewrite last_cons_not_nil by done.
        rewrite last_cons_not_nil in Hs, Hno by done.
        exists (String c prefix). split; [by rewrite append_cons, <- Hs |].
        split; [done |]. right.
        destruct Hpre as [-> | [p ->]].
        -- rewrite append_nil_l in Hs. subst s.
           rewrite (split_no_separator _ _ Hno) in Hsplit. discriminate.
        -- exists (String c p). by rewrite append_cons.
Qed.

Lemma contains_char_app_false c a b :
  Py.contains (String c EmptyString) (a +:+ b) = false ->
  Py.contains (String c EmptyString) b = false.
Proof.
  intros H. destruct (Py.contains (String c EmptyString) b) eqn:Hb; [|done].
  by rewrite (contains_app_r _ a _ Hb) in H.
Qed.

(** What [_parse_key_id] returns for a string with ['arn'] in it. *)
Lemma parse_key_id_arn_suffix s :
  Py.contains "arn" s = true ->
  exists prefix,
    s = prefix +:+ _parse_key_id s
    /\ Py.contains ":" (_parse_key_id s) = false
    /\ Py.contains "/" (_parse_key_id s) = false
    /\ (prefix = EmptyString
        \/ exists p c, prefix = p +:+ String c EmptyString
                       /\ (c = ":"%char \/ c = "/"%char)).
Proof.
  intros Harn. unfold _parse_key_id. rewrite Harn.
  destruct (last_split_suffix ":" s) as (p1 & Hs & Hno1 & Hp1).
  destruct (last_split_suffix "/" (Py.last (Py.split ":" s)))
    as (p2 & Hr & Hno2 & Hp2).
  exists (p1 +:+ p2). split; [by rewrite append_assoc, <- Hr |].
  split; [|split; [done |]].
  - rewrite Hr in Hno1. by apply contains_char_app_false in Hno1.
  - destruct Hp2 as [-> | [p ->]].
    + rewrite append_nil_r. destruct Hp1 as [-> | [p ->]]; [by left |].
      right. exists p, ":"%char. auto.
    + right. exists (p1 +:+ p), "/"%char. by rewrite append_assoc; auto.
Qed.

Lemma parse_key_id_no_separator s :
  Py.contains ":" s = false -> Py.contains "/" s = false -> _parse_key_id s = s.
Proof.
  intros H1 H2. unfold _parse_key_id. destruct (Py.contains "arn" s); [|done].
  rewrite (split_no_separator _ _ H1). unfold Py.last at 2. simpl List.last.
  by rewrite (split_no_separator _ _ H2).
Qed.

(** X1. Resolving a key reference twice gives what resolving it once
    gives. *)
Theorem parse_key_id_idempotent (s : string) :
  _parse_key_id (_parse_key_id s) = _parse_key_id s.
Proof.
  destruct (Py.contains "arn" s) eqn:Harn.
  - destruct (parse_key_id_arn_suffix s Harn) as (_ & _ & H1 & H2 & _).
    by apply parse_key_id_no_separator.
  - unfold _parse_key_id. by rewrite !Harn.
Qed.

(** X2. [_parse_key_id] returns a string without ['arn'] in it as it is,
    colons and slashes included; from a string with ['arn'] in it it takes
    the longest suffix without a colon and without a slash: what comes
    before it is empty or ends in a colon or a slash. *)
Theorem parse_key_id_takes_last_segment (s : string) :
  (Py.contains "arn" s = false -> _parse_key_id s = s)
  /\ (Py.contains "arn" s = true ->
      exists prefix,
        s = prefix +:+ _parse_key_id s
        /\ Py.contains ":" (_parse_key_id s) = false
        /\ Py.contains "/" (_parse_key_id s) = false
        /\ (prefix = EmptyString
            \/ exists p c, prefix = p +:+ String c EmptyString
                           /\ (c = ":"%char \/ c = "/"%char))).
Proof.
  split.
  - intros H. unfold _parse_key_id. by rewrite H.
  - apply parse_key_id_arn_suffix.
Qed.

Lemma parse_key_id_takes_last_segment_witness :
  _parse_key_id "key/not:resolved" = "key/not:resolved"
  /\ exists prefix,
       "arn:aws:kms:eu-west-1:012345678912:key/abc"
       = prefix +:+ _parse_key_id "arn:aws:kms:eu-west-1:012345678912:key/abc"
       /\ Py.contains "/"
            (_parse_key_id "arn:aws:kms:eu-west-1:012345678912:key/abc") = false.
Proof.
  destruct (parse_key_id_takes_last_segment "key/not:resolved") as [H1 _].
  destruct (parse_key_id_takes_last_segment
              "arn:aws:kms:eu-west-1:012345678912:key/abc") as [_ H2].
  split; [apply H1; reflexivity |].
  destruct (H2 eq_refl) as (prefix & Hs & _ & Hno & _).
  exists prefix. split; [exact Hs | exact Hno].
Defined.

(** ** The key references that [encrypt] and [generate_data_key] accept *)

Lemma split_app_no_separator sep a b :
  Py.contains (String sep EmptyString) b = false ->
  Py.split sep (a +:+ b) =
  removelast (Py.split sep a) ++ [List.last (Py.split sep a) EmptyString +:+ b].
Proof.
  intros Hb. induction a as [|c a IH].
  - by rewrite append_nil_l, split_no_separator.
  - rewrite append_cons, !split_cons, IH.
    pose proof (split_not_nil sep a) as Hne.
    destruct (Ascii.eqb c sep).
    + by destruct (Py.split sep a) as [|h t].
    + destruct (Py.split sep a) as [|h [|h' t]]; done.
Qed.

Lemma last_split_app_no_separator sep a b :
  Py.contains (String sep EmptyString) b = false ->
  Py.last (Py.split sep (a +:+ b)) = Py.last (Py.split sep a) +:+ b.
Proof.
  intros Hb. unfold Py.last.
  by rewrite (split_app_no_separator _ _ _ Hb), last_last.
Qed.

Lemma parse_key_id_separator prefix c key_id :
  Py.contains "arn" (prefix +:+ String c key_id) = true ->
  c = ":"%char \/ c = "/"%char ->
  valid_key_id key_id = true ->
  _parse_key_id (prefix +:+ String c key_id) = key_id.
Proof.
  intros Harn Hc Hv. unfold _parse_key_id. rewrite Harn.
  pose proof (valid_key_id_no_substring key_id ":" Hv eq_refl) as Hcolon.
  pose proof (valid_key_id_no_substring key_id "/" Hv eq_refl) as Hslash.
  destruct Hc as [-> | ->].
  - rewrite last_split_app, (split_no_separator _ _ Hcolon).
    unfold Py.last at 2. simpl List.last.
    by rewrite (split_no_separator _ _ Hslash).
  - rewrite last_split_app_no_separator.
    + by rewrite last_split_app, (split_no_separator _ _ Hslash).
    + by rewrite contains_cons, Hcolon.
Qed.

Lemma accepted_key_reference_iff key_ref :
  accepted_key_reference key_ref <-> valid_key_id (_parse_key_id key_ref) = true.
Proof.
  split.
  - intros [Hv | (Harn & prefix & c & key_id & -> & Hc & Hv)].
    + by rewrite parse_key_id_valid.
    + by rewrite parse_key_id_separator.
  - intros Hv. destruct (Py.contains "arn" key_ref) eqn:Harn.
    + destruct (parse_key_id_arn_suffix key_ref Harn)
        as (prefix & Hs & _ & _ & [-> | (p & c & -> & Hc)]).
      * left. by rewrite Hs at 1.
      * right. split; [done |].
        exists p, c, (_parse_key_id key_ref). split; [|done].
        by rewrite Hs at 1; rewrite append_assoc.
    + left. unfold _parse_key_id in Hv. by rewrite Harn in Hv.
Qed.

(** X3. Whatever the backend, [encrypt] and [generate_data_key] go on to
    the backend exactly for the accepted key references -- an identifier of
    the accepted shape, or any string with ['arn'] in it that ends in a
    colon or a slash and such an identifier, so also the ARN of an alias --
    and fail with [' Invalid keyId'] for every other reference; nothing
    asks whether the key exists. *)
Theorem encrypt_accepted_key_references
    (B : Backend.t) (key_ref : string) (s : Backend.St B) :
  (accepted_key_reference key_ref ->
     (forall p c, exists j, KmsResponse.encrypt B key_ref p c s = (Return (Body j), s))
     /\ (forall key_spec n c, exists j s',
           KmsResponse.generate_data_key B key_ref key_spec n c s
           = (Return (Body j), s')))
  /\ (~ accepted_key_reference key_ref ->
        (forall p c,
           KmsResponse.encrypt B key_ref p c s = (Raise invalid_key_id_error, s))
        /\ (forall key_spec n c,
              KmsResponse.generate_data_key B key_ref key_spec n c s
              = (Raise invalid_key_id_error, s))).
Proof.
  rewrite accepted_key_reference_iff. split.
  - intros Hv. split.
    + intros p c. run_handler. rewrite Hv. simpl.
      destruct (Backend.encrypt B key_ref p c s). eauto.
    + intros key_spec n c. run_handler. rewrite Hv. simpl.
      destruct (Backend.generate_data_key B key_ref key_spec n c s)
        as [[[? ?] ?] ?]. eauto.
  - intros Hv%not_true_is_false. split.
    + intros p c. run_handler. by rewrite Hv.
    + intros key_spec n c. run_handler. by rewrite Hv.
Qed.

Lemma encrypt_accepted_key_references_witness :
  (exists j,
     KmsResponse.encrypt Example.B
       "arn:aws:kms:us-east-1:012345678912:alias/00010203-0405-0607-0809-0a0b0c0d0e0f"
       Example.hello None Example.s0 = (Return (Body j), Example.s0))
  /\ KmsResponse.encrypt Example.B "key/00010203-0405-0607-0809-0a0b0c0d0e0f"
       Example.hello None Example.s0 = (Raise invalid_key_id_error, Example.s0).
Proof.
  split.
  - apply (proj1 (encrypt_accepted_key_references Example.B
      "arn:aws:kms:us-east-1:012345678912:alias/00010203-0405-0607-0809-0a0b0c0d0e0f"
      Example.s0)).
    right. split; [reflexivity |].
    exists "arn:aws:kms:us-east-1:012345678912:alias", "/"%char,
      "00010203-0405-0607-0809-0a0b0c0d0e0f".
    split; [reflexivity | split; [by right | vm_compute; reflexivity]].
  - apply (proj2 (encrypt_accepted_key_references Example.B
      "key/00010203-0405-0607-0809-0a0b0c0d0e0f" Example.s0)).
    intros H%accepted_key_reference_iff. vm_compute in H. discriminate.
Defined.

(** ** What [_assert_valid_key_id] accepts *)

Lemma append_length (a b : string) :
  String.length (a +:+ b) = (String.length a + String.length b)%nat.
Proof.
  induction a as [|c a IH]; [done |]. rewrite append_cons. simpl. by rewrite IH.
Qed.

Lemma canonical_key_id_length s :
  canonical_key_id s = true -> String.length s = 36%nat.
Proof.
  intros H%lang_key_id_pattern. unfold key_id_pattern in H.
  apply lang_Cat_inv in H
    as (g1 & ? & -> & H1 & (? & ? & -> & ->%lang_lit_inv
          & (g2 & ? & -> & H2 & (? & ? & -> & ->%lang_lit_inv
          & (g3 & ? & -> & H3 & (? & ? & -> & ->%lang_lit_inv
          & (g4 & ? & -> & H4 & (? & g5 & -> & ->%lang_lit_inv & H5
         )%lang_Cat_inv)%lang_Cat_inv)%lang_Cat_inv)%lang_Cat_inv
         )%lang_Cat_inv)%lang_Cat_inv)%lang_Cat_inv).
  apply lang_rep_class in H1 as [H1 _]. apply lang_rep_class in H2 as [H2 _].
  apply lang_rep_class in H3 as [H3 _]. apply lang_rep_class in H4 as [H4 _].
  apply lang_rep_class in H5 as [H5 _].
  rewrite !append_length, H1, H2, H3, H4, H5. reflexivity.
Qed.

(** X4. [_assert_valid_key_id] passes exactly the identifiers of the shape
    5 groups of 8, 4, 4, 4 and 12 hexadecimal digits between hyphens, and
    those identifiers followed by one newline (the anchor [$] stops before
    a final newline); it raises the 404 [' Invalid keyId'] for every other
    string.  What it passes has 36 or 37 characters. *)
Theorem assert_valid_key_id_accepts (St : Type) (key_id : string) (s : St) :
  (canonical_key_id key_id = true
   \/ (exists t, key_id = t +:+ String "010" EmptyString
                 /\ canonical_key_id t = true) ->
   _assert_valid_key_id key_id s = (Return tt, s))
  /\ (malformed_key_id key_id ->
      _assert_valid_key_id key_id s = (Raise invalid_key_id_error, s))
  /\ (_assert_valid_key_id key_id s = (Return tt, s) ->
      String.length key_id = 36%nat \/ String.length key_id = 37%nat).
Proof.
  unfold _assert_valid_key_id, raise_if, raise, ret. split; [|split].
  - intros Hv%valid_key_id_spec. by rewrite Hv.
  - intros Hv%malformed_key_id_iff. by rewrite Hv.
  - destruct (valid_key_id key_id) eqn:Hv; [|discriminate]. intros _.
    apply valid_key_id_spec in Hv as [Hv | (t & -> & Hv)].
    + left. by apply canonical_key_id_length.
    + right. rewrite append_length, (canonical_key_id_length _ Hv). reflexivity.
Qed.

Lemma assert_valid_key_id_accepts_witness :
  _assert_valid_key_id "0123ABCD-0000-1111-2222-0123456789ab" tt = (Return tt, tt)
  /\ _assert_valid_key_id "0123ABCD-0000-1111-2222-0123456789a" tt
     = (Raise invalid_key_id_error, tt)
  /\ (String.length
        ("0123ABCD-0000-1111-2222-0123456789ab" +:+ String "010" EmptyString)
      = 36%nat
      \/ String.length
           ("0123ABCD-0000-1111-2222-0123456789ab" +:+ String "010" EmptyString)
         = 37%nat).
Proof.
  split; [|split].
  - apply (proj1 (assert_valid_key_id_accepts unit
                    "0123ABCD-0000-1111-2222-0123456789ab" tt)).
    left. vm_compute. reflexivity.
  - apply (proj1 (proj2 (assert_valid_key_id_accepts unit
                           "0123ABCD-0000-1111-2222-0123456789a" tt))).
    apply malformed_key_id_iff. vm_compute. reflexivity.
  - apply (proj2 (proj2 (assert_valid_key_id_accepts unit
             ("0123ABCD-0000-1111-2222-0123456789ab" +:+ String "010" EmptyString)
             tt))).
    vm_compute. reflexivity.
Defined.

(** ** The shape check does not look at the case of letters *)

Lemma nullable_deriv_invariant f r c :
  class_invariant f r -> Re.deriv (f c) r = Re.deriv c r.
Proof.
  induction r as [ | | p | r1 IH1 r2 IH2 | r1 IH1 r2 IH2 | r IH ]; simpl;
    try done.
  - intros ->. done.
  - intros [H1 H2]. by rewrite IH1, IH2.
  - intros [H1 H2]. by rewrite IH1, IH2.
  - intros H. by rewrite IH.
Qed.

Lemma class_invariant_deriv f r c :
  class_invariant f r -> class_invariant f (Re.deriv c r).
Proof.
  induction r as [ | | p | r1 IH1 r2 IH2 | r1 IH1 r2 IH2 | r IH ]; simpl;
    try done.
  - intros _. by destruct (p c).
  - intros [H1 H2]. destruct (Re.nullable r1); simpl; auto.
  - intros [H1 H2]. auto.
  - intros H. auto.
Qed.

Lemma fullmatch_str_map f r s :
  class_invariant f r -> Re.fullmatch r (str_map f s) = Re.fullmatch r s.
Proof.
  revert r. induction s as [|c s IH]; intros r Hr; simpl; [done |].
  rewrite (nullable_deriv_invariant f r c Hr).
  apply IH. by apply class_invariant_deriv.
Qed.

Lemma chomp_str_map f s :
  (forall c, Ascii.eqb (f c) "010" = Ascii.eqb c "010") ->
  Re.chomp (str_map f s) = option_map (str_map f) (Re.chomp s).
Proof.
  intros Hf. induction s as [|c s IH]; [done |].
  destruct s as [|c' s].
  - simpl. rewrite Hf. by destruct (Ascii.eqb c "010").
  - change (str_map f (String c (String c' s)))
      with (String (f c) (String (f c') (str_map f s))).
    rewrite !chomp_cons.
    change (String (f c') (str_map f s)) with (str_map f (String c' s)).
    rewrite IH. by destruct (Re.chomp (String c' s)).
Qed.

Lemma match_anchored_str_map f r s :
  class_invariant f r ->
  (forall c, Ascii.eqb (f c) "010" = Ascii.eqb c "010") ->
  Re.match_anchored r (str_map f s) = Re.match_anchored r s.
Proof.
  intros Hr Hf. unfold Re.match_anchored.
  rewrite fullmatch_str_map, chomp_str_map by done.
  destruct (Re.chomp s); simpl; [|done].
  by rewrite fullmatch_str_map.
Qed.

Lemma hex_class_upper c : hex_class (Re.upper c) = hex_class c.
Proof. destruct c as [[] [] [] [] [] [] [] []]; vm_compute; reflexivity. Qed.

Lemma hex_class_lower c : hex_class (Re.lower c) = hex_class c.
Proof. destruct c as [[] [] [] [] [] [] [] []]; vm_compute; reflexivity. Qed.

Lemma eqb_upper (x c : ascii) :
  x = "-"%char \/ x = "010"%char ->
  Ascii.eqb x (Re.upper c) = Ascii.eqb x c
  /\ Ascii.eqb (Re.upper c) x = Ascii.eqb c x
  /\ Ascii.eqb x (Re.lower c) = Ascii.eqb x c
  /\ Ascii.eqb (Re.lower c) x = Ascii.eqb c x.
Proof.
  intros [-> | ->]; destruct c as [[] [] [] [] [] [] [] []];
    vm_compute; done.
Qed.

(** X5. The shape check of key identifiers gives the same answer for an
    identifier, for the identifier in upper case and for the identifier in
    lower case ([re.IGNORECASE]). *)
Theorem valid_key_id_ignores_case (key_id : string) :
  valid_key_id (str_map Re.upper key_id) = valid_key_id key_id
  /\ valid_key_id (str_map Re.lower key_id) = valid_key_id key_id.
Proof.
  unfold valid_key_id. split; apply match_anchored_str_map.
  - unfold key_id_pattern, Re.lit. simpl.
    repeat split; intros c;
      first [ apply hex_class_upper | apply (eqb_upper "-" c); by left ].
  - intros c. apply (eqb_upper "010" c). by right.
  - unfold key_id_pattern, Re.lit. simpl.
    repeat split; intros c;
      first [ apply hex_class_lower | apply (eqb_upper "-" c); by left ].
  - intros c. apply (eqb_upper "010" c). by right.
Qed.

(** ** The alias names that [create_alias] accepts *)

Lemma lang_star_class p s :
  lang (Re.Star (Re.Class p)) s <-> str_forall p s = true.
Proof.
  split.
  - remember (Re.Star (Re.Class p)) as r eqn:Hr. intros H.
    induction H as [ | | | | | r0 | r0 s1 s2 H1 _ H2 IH2 ]; try discriminate.
    + done.
    + injection Hr as ->.
      inversion H1 as [ | p' c Hc | | | | | ]; subst.
      rewrite append_cons, append_nil_l. simpl. by rewrite Hc, IH2.
  - induction s as [|c s IH]; simpl; [constructor |].
    intros [Hc Hs]%andb_true_iff.
    change (String c s) with (String c EmptyString +:+ s).
    constructor; [by constructor | auto].
Qed.

Lemma fullmatch_plus_class p s :
  Re.fullmatch (Re.plus (Re.Class p)) s =
  match s with
  | EmptyString => false
  | String _ _ => str_forall p s
  end.
Proof.
  apply eq_true_iff_eq. rewrite fullmatch_lang. unfold Re.plus. split.
  - intros (s1 & s2 & -> & H1 & H2%lang_star_class)%lang_Cat_inv.
    inversion H1 as [ | p' c Hc | | | | | ]; subst.
    rewrite append_cons, append_nil_l. simpl. by rewrite Hc, H2.
  - destruct s as [|c s]; [done |]. simpl.
    intros [Hc Hs]%andb_true_iff.
    change (String c s) with (String c EmptyString +:+ s).
    constructor; [by constructor | by apply lang_star_class].
Qed.

Lemma contains_char c s :
  Py.contains (String c EmptyString) s
  = negb (str_forall (fun x => negb (Ascii.eqb x c)) s).
Proof.
  induction s as [|x s IH]; [done |].
  rewrite contains_cons, IH. simpl.
  destruct (ascii_dec c x) as [->|Hne].
  - rewrite Ascii.eqb_refl. by destruct s.
  - destruct (Ascii.eqb_spec x c); [congruence | done].
Qed.

Lemma str_forall_alias_body s :
  str_forall alias_body_char s
  = str_forall alias_name_class s && negb (Py.contains ":" s).
Proof.
  rewrite contains_char, negb_involutive.
  induction s as [|c s IH]; [done |]. simpl. rewrite IH.
  unfold alias_body_char.
  destruct (alias_name_class c), (negb (Ascii.eqb c ":")),
    (str_forall alias_name_class s); done.
Qed.

(** The two checks of [create_alias] on the characters of a name that
    starts as an alias name must. *)
Lemma alias_name_character_checks alias_name :
  Py.startswith alias_name "alias/" = true ->
  negb (Py.contains ":" alias_name)
  && Re.match_anchored alias_name_pattern alias_name
  = str_forall alias_body_char alias_name
    || match Re.chomp alias_name with
       | Some t => str_forall alias_body_char t
       | None => false
       end.
Proof.
  intros Hstart. unfold Re.match_anchored, alias_name_pattern.
  rewrite fullmatch_plus_class.
  destruct alias_name as [|a0 rest] eqn:Hname; [discriminate |].
  rewrite <- Hname in *. clear Hname a0 rest.
  rewrite (str_forall_alias_body alias_name).
  destruct (Re.chomp alias_name) as [t|] eqn:Ht.
  - apply chomp_Some in Ht. subst alias_name.
    rewrite fullmatch_plus_class, (str_forall_alias_body t).
    rewrite !contains_char, !negb_involutive, !str_forall_app. simpl.
    rewrite !andb_false_r. simpl.
    destruct t as [|c t]; [discriminate |].
    rewrite andb_true_r. apply andb_comm.
  - rewrite !orb_false_r. apply andb_comm.
Qed.

(** After the checks on the name, the outcome of [create_alias] depends on
    the two lookups in the alias index. *)
Lemma create_alias_after_name_checks
    (B : Backend.t) (region alias_name target_key_id : string) (s : Backend.St B) :
  acceptable_alias_name alias_name = true ->
  KmsResponse.create_alias B region alias_name target_key_id s =
  if Backend.alias_exists B target_key_id s
  then (Raise (KmsResponse.create_alias_error region alias_name 5), s)
  else if Backend.alias_exists B alias_name s
  then (Raise (KmsResponse.create_alias_error region alias_name 6), s)
  else (Return (Body JNull), Backend.add_alias B target_key_id alias_name s).
Proof.
  unfold acceptable_alias_name.
  destruct (Py.startswith alias_name "alias/") eqn:H1; [|discriminate].
  rewrite <- (alias_name_character_checks alias_name H1).
  destruct (Py.in_list alias_name reserved_aliases) eqn:H2; [discriminate |].
  destruct (Py.contains ":" alias_name) eqn:H3; [discriminate |].
  destruct (Re.match_anchored alias_name_pattern alias_name) eqn:H4;
    [|discriminate].
  intros _. run_handler. rewrite H1, H2, H3, H4. simpl.
  destruct (Backend.alias_exists B target_key_id s); [done |]. simpl.
  by destruct (Backend.alias_exists B alias_name s).
Qed.

(** X6. Whatever the backend, the four checks that [create_alias] makes on
    the name alone pass exactly for the names that start with ['alias/'],
    are not reserved, and consist of letters, digits, slashes, underscores
    and hyphens, a final newline apart; the colon of the character class is
    never let through, and the name ['alias/'] with nothing behind it is.
    For such a name the outcome depends on the two lookups in the alias
    index alone; for any other name one of the first four errors is
    raised. *)
Theorem create_alias_acceptable_names
    (B : Backend.t) (region alias_name target_key_id : string) (s : Backend.St B) :
  (acceptable_alias_name alias_name = true ->
     KmsResponse.create_alias B region alias_name target_key_id s =
     if Backend.alias_exists B target_key_id s
     then (Raise (KmsResponse.create_alias_error region alias_name 5), s)
     else if Backend.alias_exists B alias_name s
     then (Raise (KmsResponse.create_alias_error region alias_name 6), s)
     else (Return (Body JNull), Backend.add_alias B target_key_id alias_name s))
  /\ (acceptable_alias_name alias_name = false ->
      exists n, In n [1; 2; 3; 4]%nat
        /\ KmsResponse.create_alias B region alias_name target_key_id s
           = (Raise (KmsResponse.create_alias_error region alias_name n), s)).
Proof.
  split; [apply create_alias_after_name_checks |].
  unfold acceptable_alias_name.
  destruct (Py.startswith alias_name "alias/") eqn:H1.
  2:{ intros _. exists 1%nat. split; [simpl; auto |].
      run_handler. by rewrite H1. }
  rewrite <- (alias_name_character_checks alias_name H1).
  destruct (Py.in_list alias_name reserved_aliases) eqn:H2.
  { intros _. exists 2%nat. split; [simpl; auto |].
    run_handler. by rewrite H1, H2. }
  destruct (Py.contains ":" alias_name) eqn:H3.
  { intros _. exists 3%nat. split; [simpl; auto |].
    run_handler. by rewrite H1, H2, H3. }
  destruct (Re.match_anchored alias_name_pattern alias_name) eqn:H4;
    [discriminate |].
  intros _. exists 4%nat. split; [simpl; auto |].
  run_handler. by rewrite H1, H2, H3, H4.
Qed.

Lemma create_alias_acceptable_names_witness :
  KmsResponse.create_alias Example.B Example.region "alias/" "any-target" Example.s0
  = (Return (Body JNull), Models.add_alias "any-target" "alias/" Example.s0)
  /\ exists n, In n [1; 2; 3; 4]%nat
       /\ KmsResponse.create_alias Example.B Example.region "alias/a b" "any-target"
            Example.s0
          = (Raise (KmsResponse.create_alias_error Example.region "alias/a b" n),
             Example.s0).
Proof.
  split.
  - apply (proj1 (create_alias_acceptable_names Example.B Example.region
                    "alias/" "any-target" Example.s0)).
    vm_compute. reflexivity.
  - apply (proj2 (create_alias_acceptable_names Example.B Example.region
                    "alias/a b" "any-target" Example.s0)).
    vm_compute. reflexivity.
Defined.

(** ** Deleting an alias *)

(** X7. Whatever the backend, [delete_alias] fails only as an invalid
    argument (a name that does not start with ['alias/']) or as not found
    (a name that is not in the alias index), never as not authorized, and a
    failure leaves the state as it was.  A reserved alias name gets no
    treatment of its own: it is deleted if the index has it, and else
    answered with the [NotFoundException] of status 400. *)
Theorem delete_alias_has_no_reserved_names
    (B : Backend.t) (region alias_name : string) (s : Backend.St B) :
  (forall e s',
     KmsResponse.delete_alias B region alias_name s = (Raise e, s') ->
     s' = s /\ (kind_of e = Some InvalidArgument \/ kind_of e = Some NotFound))
  /\ (In alias_name reserved_aliases ->
      KmsResponse.delete_alias B region alias_name s =
      if Backend.alias_exists B alias_name s
      then (Return (Body JNull), Backend.delete_alias B alias_name s)
      else (Raise (NotFoundException 400 "Bad Request"
                     (ErrBody
                        (Some ("Alias arn:aws:kms:" +:+ region
                               +:+ ":012345678912:" +:+ alias_name
                               +:+ " is not found."))
                        "NotFoundException")), s)).
Proof.
  split.
  - intros e s'. run_handler. split_tests; intros [= <- <-]; auto.
  - intros Hin. run_handler. rewrite (reserved_alias_startswith _ Hin). simpl.
    by destruct (Backend.alias_exists B alias_name s).
Qed.

Lemma delete_alias_has_no_reserved_names_witness :
  exists e,
    KmsResponse.delete_alias Example.B Example.region "alias/aws/rds" Example.s1
    = (Raise e, Example.s1)
    /\ kind_of e = Some NotFound /\ status_of (Raise e) = Some 400.
Proof.
  assert (In "alias/aws/rds" reserved_aliases) as Hin by (simpl; auto).
  pose proof (proj2 (delete_alias_has_no_reserved_names Example.B Example.region
                       "alias/aws/rds" Example.s1) Hin) as H.
  eexists. split; [exact H | split; reflexivity].
Defined.

(** ** The list of aliases *)

(** X8. Whatever the backend, [list_aliases] changes nothing and replies,
    never truncated, with the four reserved aliases first, in their order
    and without a target key, followed by one entry with its target key for
    every alias of every key of the backend: four entries more than the
    backend has aliases. *)
Theorem list_aliases_entries
    (B : Backend.t) (region : string) (s : Backend.St B) :
  exists entries,
    KmsResponse.list_aliases B region s
    = (Return (Body (JObj [ ("Truncated", JBool false);
                            ("Aliases", JArr entries) ])), s)
    /\ firstn 4 entries
       = map (fun a => JObj [ ("AliasArn", JStr (KmsResponse.alias_arn region a));
                              ("AliasName", JStr a) ]) reserved_aliases
    /\ Forall (fun e => json_get "TargetKeyId" e = None) (firstn 4 entries)
    /\ Forall (fun e => exists target, json_get "TargetKeyId" e = Some (JStr target))
         (skipn 4 entries)
    /\ (forall target aliases a,
          In (target, aliases) (Backend.get_all_aliases B s) -> In a aliases ->
          In (JObj [ ("AliasArn", JStr (KmsResponse.alias_arn region a));
                     ("AliasName", JStr a);
                     ("TargetKeyId", JStr target) ]) (skipn 4 entries))
    /\ length entries
       = (4 + list_sum (map (fun ta => length (snd ta))
                          (Backend.get_all_aliases B s)))%nat.
Proof.
  run_handler. reduce. eexists. split; [reflexivity |].
  set (rest := flat_map _ (Backend.get_all_aliases B s)).
  change (map _ reserved_aliases ++ rest)
    with (map (fun a => JObj [ ("AliasArn", JStr (KmsResponse.alias_arn region a));
                               ("AliasName", JStr a) ]) reserved_aliases ++ rest).
  split; [reflexivity |]. split; [|split; [|split]].
  - repeat constructor.
  - change (Forall (fun e => exists target,
                      json_get "TargetKeyId" e = Some (JStr target)) rest).
    subst rest. apply List.Forall_forall. intros e Hin.
    apply in_flat_map in Hin as ([target aliases] & _ & Hin).
    apply in_map_iff in Hin as (a & <- & _). by exists target.
  - intros target aliases a Hta Ha.
    change (In (JObj [ ("AliasArn", JStr (KmsResponse.alias_arn region a));
                       ("AliasName", JStr a);
                       ("TargetKeyId", JStr target) ]) rest).
    subst rest. apply in_flat_map. exists (target, aliases). split; [done |].
    apply in_map_iff. by exists a.
  - rewrite length_app. simpl length at 1. f_equal.
    subst rest. induction (Backend.get_all_aliases B s) as [|[t l] bs IH];
      [done |].
    simpl. by rewrite length_app, length_map, IH.
Qed.

Lemma list_aliases_entries_witness :
  exists entries,
    fst (KmsResponse.list_aliases Example.B Example.region
           (Models.add_alias "k" "alias/a" Example.s0))
    = Return (Body (JObj [ ("Truncated", JBool false);
                           ("Aliases", JArr entries) ]))
    /\ In (JObj [ ("AliasArn", JStr (KmsResponse.alias_arn Example.region "alias/a"));
                  ("AliasName", JStr "alias/a");
                  ("TargetKeyId", JStr "k") ]) (skipn 4 entries)
    /\ length entries = 5%nat.
Proof.
  destruct (list_aliases_entries Example.B Example.region
              (Models.add_alias "k" "alias/a" Example.s0))
    as (entries & H1 & _ & _ & _ & H5 & H6).
  exists entries. split; [by rewrite H1 | split].
  - apply (H5 "k" ["alias/a"] "alias/a").
    + vm_compute. auto.
    + simpl. auto.
  - rewrite H6. vm_compute. reflexivity.
Defined.

(** ** Failure kinds and status codes, request by request *)

(** X9. Whatever the backend, a request fails only in the kinds of its
    operation: [create_key], [list_keys] and [list_aliases] never fail;
    [create_alias] fails as invalid argument, not authorized or already
    exists; [delete_alias] as invalid argument or not found; [decrypt] as
    invalid ciphertext only; every other request, the two policy requests
    with their policy name included, as not found only.  No [KeyError] of
    the backend leaves a handler. *)
Theorem failure_kinds_by_operation
    (B : Backend.t) (region : string) (r : KmsResponse.request) (s : Backend.St B) :
  let o := fst (KmsResponse.handle B region r s) in
  KmsResponse.failure_of o <> Some None
  /\ forall k, KmsResponse.failure_of o = Some (Some k) ->
               In k (possible_failures r).
Proof.
  destruct r; run_handler; split_tests; simpl;
    (split; [done | intros ? [= <-]; auto]).
Qed.

Lemma failure_kinds_by_operation_witness :
  KmsResponse.failure_of
    (fst (KmsResponse.handle Example.B Example.region
            (KmsResponse.PutKeyPolicy (Models.id Example.K) (Some "custom")
               (Some "{}")) Example.s1))
  = Some (Some NotFound)
  /\ In NotFound
       (possible_failures
          (KmsResponse.PutKeyPolicy (Models.id Example.K) (Some "custom")
             (Some "{}"))).
Proof.
  assert (KmsResponse.failure_of
            (fst (KmsResponse.handle Example.B Example.region
                    (KmsResponse.PutKeyPolicy (Models.id Example.K) (Some "custom")
                       (Some "{}")) Example.s1))
          = Some (Some NotFound)) as H by (vm_compute; reflexivity).
  split; [exact H |].
  exact (proj2 (failure_kinds_by_operation Example.B Example.region
                  (KmsResponse.PutKeyPolicy (Models.id Example.K) (Some "custom")
                     (Some "{}")) Example.s1) NotFound H).
Defined.

(** X10. Whatever the backend, a request that succeeds has status 200, and
    a request that fails has the status of its operation: 400 for
    [create_alias], [delete_alias] (an alias that is not found included)
    and [decrypt], 404 for every request that names a key. *)
Theorem status_by_operation
    (B : Backend.t) (region : string) (r : KmsResponse.request) (s : Backend.St B) :
  let o := fst (KmsResponse.handle B region r s) in
  (KmsResponse.failure_of o = None -> status_of o = Some 200)
  /\ (KmsResponse.failure_of o <> None -> status_of o = Some (failure_status r)).
Proof.
  destruct r; run_handler; split_tests; simpl; split; done.
Qed.

Lemma status_by_operation_witness :
  status_of (fst (KmsResponse.handle Example.B Example.region
                    (KmsResponse.DeleteAlias "alias/none") Example.s1))
  = Some 400
  /\ status_of (fst (KmsResponse.handle Example.B Example.region
                       (KmsResponse.EnableKeyRotation
                          "00000000-0000-0000-0000-000000000000") Example.s1))
     = Some 404
  /\ status_of (fst (KmsResponse.handle Example.B Example.region
                       KmsResponse.ListKeys Example.s1))
     = Some 200.
Proof.
  split; [|split].
  - apply (proj2 (status_by_operation Example.B Example.region
                    (KmsResponse.DeleteAlias "alias/none") Example.s1)).
    vm_compute. discriminate.
  - apply (proj2 (status_by_operation Example.B Example.region
                    (KmsResponse.EnableKeyRotation
                       "00000000-0000-0000-0000-000000000000") Example.s1)).
    vm_compute. discriminate.
  - apply (proj1 (status_by_operation Example.B Example.region
                    KmsResponse.ListKeys Example.s1)).
    vm_compute. reflexivity.
Defined.

(** ** An alias name is registered once *)

Lemma acceptable_alias_name_startswith alias_name :
  acceptable_alias_name alias_name = true ->
  Py.startswith alias_name "alias/" = true.
Proof.
  unfold acceptable_alias_name.
  by destruct (Py.startswith alias_name "alias/").
Qed.

(** X11. For a backend that finds an alias once it has stored it: when
    [create_alias] has stored a name, a second [create_alias] of the name
    fails and leaves the state as it is -- as already exists when the new
    target is no alias, and, the check of the target coming first, as an
    invalid argument when the new target is the name itself. *)
Theorem create_alias_twice
    (B : Backend.t) (region alias_name target_key_id other_key_id : string)
    (s : Backend.St B) :
  let s' := Backend.add_alias B target_key_id alias_name s in
  acceptable_alias_name alias_name = true ->
  Backend.alias_exists B target_key_id s = false ->
  Backend.alias_exists B alias_name s = false ->
  Backend.alias_exists B alias_name s' = true ->
  Backend.alias_exists B other_key_id s' = false ->
  KmsResponse.create_alias B region alias_name target_key_id s
  = (Return (Body JNull), s')
  /\ KmsResponse.create_alias B region alias_name other_key_id s'
     = (Raise (KmsResponse.create_alias_error region alias_name 6), s')
  /\ kind_of (KmsResponse.create_alias_error region alias_name 6)
     = Some AlreadyExists
  /\ KmsResponse.create_alias B region alias_name alias_name s'
     = (Raise (KmsResponse.create_alias_error region alias_name 5), s')
  /\ kind_of (KmsResponse.create_alias_error region alias_name 5)
     = Some InvalidArgument.
Proof.
  intros s' Hacc Ht Hn Hn' Ho.
  rewrite !(create_alias_after_name_checks B region alias_name) by done.
  by rewrite Ht, Hn, Ho, Hn'.
Qed.

Lemma create_alias_twice_witness :
  KmsResponse.create_alias Example.B Example.region "alias/app" "key-2"
    (Models.add_alias "key-1" "alias/app" Example.s0)
  = (Raise (KmsResponse.create_alias_error Example.region "alias/app" 6),
     Models.add_alias "key-1" "alias/app" Example.s0).
Proof.
  apply (create_alias_twice Example.B Example.region "alias/app" "key-1" "key-2"
           Example.s0); vm_compute; reflexivity.
Defined.

(** X12. For a backend that no longer finds an alias once it has deleted
    it: when [delete_alias] has deleted a registered name, a second
    [delete_alias] of the name fails as not found and leaves the state as
    it is, and [create_alias] of the name for a target that is no alias
    stores it again. *)
Theorem delete_alias_then_create
    (B : Backend.t) (region alias_name target_key_id : string) (s : Backend.St B) :
  let s' := Backend.delete_alias B alias_name s in
  acceptable_alias_name alias_name = true ->
  Backend.alias_exists B alias_name s = true ->
  Backend.alias_exists B alias_name s' = false ->
  Backend.alias_exists B target_key_id s' = false ->
  KmsResponse.delete_alias B region alias_name s = (Return (Body JNull), s')
  /\ (exists e,
        KmsResponse.delete_alias B region alias_name s' = (Raise e, s')
        /\ kind_of e = Some NotFound)
  /\ KmsResponse.create_alias B region alias_name target_key_id s'
     = (Return (Body JNull), Backend.add_alias B target_key_id alias_name s').
Proof.
  intros s' Hacc Hn Hn' Ht.
  pose proof (acceptable_alias_name_startswith _ Hacc) as Hstart.
  split; [|split].
  - run_handler. rewrite Hstart. simpl. by rewrite Hn.
  - eexists. split.
    + run_handler. rewrite Hstart. simpl. fold s'. by rewrite Hn'.
    + reflexivity.
  - rewrite (create_alias_after_name_checks B region alias_name) by done.
    by rewrite Ht, Hn'.
Qed.

Lemma delete_alias_then_create_witness :
  KmsResponse.create_alias Example.B Example.region "alias/app" "key-2"
    (Models.delete_alias "alias/app"
       (Models.add_alias "key-1" "alias/app" Example.s0))
  = (Return (Body JNull),
     Models.add_alias "key-2" "alias/app"
       (Models.delete_alias "alias/app"
          (Models.add_alias "key-1" "alias/app" Example.s0))).
Proof.
  apply (delete_alias_then_create Example.B Example.region "alias/app" "key-2"
           (Models.add_alias "key-1" "alias/app" Example.s0));
    vm_compute; reflexivity.
Defined.

(** ** A key that the backend does not have *)

(** X13. Whatever the backend, for an identifier of the accepted shape that
    the backend does not have, the three rotation requests, the two policy
    requests for the policy ["default"] and [list_key_policies] all fail
    with one and the same 404 [NotFoundException], whose message names the
    region and the identifier, and leave the state as it was; it is neither
    the exception of the shape check nor that of the policy name. *)
Theorem missing_key_is_not_found
    (B : Backend.t) (region key_id : string) (s : Backend.St B) :
  let e := KmsResponse.key_does_not_exist_error region key_id in
  valid_key_id key_id = true ->
  (Backend.enable_key_rotation B key_id s = None ->
   KmsResponse.enable_key_rotation B region key_id s = (Raise e, s))
  /\ (Backend.disable_key_rotation B key_id s = None ->
      KmsResponse.disable_key_rotation B region key_id s = (Raise e, s))
  /\ (Backend.get_key_rotation_status B key_id s = None ->
      KmsResponse.get_key_rotation_status B region key_id s = (Raise e, s))
  /\ (forall policy, Backend.put_key_policy B key_id policy s = None ->
      KmsResponse.put_key_policy B region key_id (Some "default") policy s
      = (Raise e, s))
  /\ (Backend.get_key_policy B key_id s = None ->
      KmsResponse.get_key_policy B region key_id (Some "default") s = (Raise e, s))
  /\ (Backend.describe_key B key_id s = None ->
      KmsResponse.list_key_policies B region key_id s = (Raise e, s))
  /\ kind_of e = Some NotFound /\ status_of (Raise e) = Some 404
  /\ e <> invalid_key_id_error /\ e <> no_such_policy_error.
Proof.
  intros e Hv. subst e.
  repeat split; try discriminate;
    try (intros; run_handler; rewrite Hv; simpl;
         match goal with H : _ = None |- _ => by rewrite H end).
Qed.

Lemma missing_key_is_not_found_witness :
  KmsResponse.get_key_policy Example.B Example.region
    "00000000-0000-0000-0000-000000000000" (Some "default") Example.s1
  = (Raise (KmsResponse.key_does_not_exist_error Example.region
              "00000000-0000-0000-0000-000000000000"), Example.s1).
Proof.
  apply (missing_key_is_not_found Example.B Example.region
           "00000000-0000-0000-0000-000000000000" Example.s1);
    vm_compute; reflexivity.
Defined.

(** ** References in ARN form, operation by operation *)

Lemma arn_reference_not_valid key_ref :
  Py.contains "arn" key_ref = true -> valid_key_id key_ref = false.
Proof.
  intros Harn. destruct (valid_key_id key_ref) eqn:Hv; [|done].
  by rewrite (valid_key_id_no_substring key_ref "arn" Hv) in Harn.
Qed.

(** X14. Whatever the backend, a reference in ARN form -- a string with
    ['arn'] in it that ends in [:key/] and an identifier of the accepted
    shape -- is treated in three ways: [encrypt] and [generate_data_key]
    resolve it and go on; [describe_key] hands it to the backend as it is;
    the three rotation requests, the two policy requests and
    [list_key_policies] refuse it with [' Invalid keyId'], also when the
    lookup of the backend, which [list_key_policies] shares with
    [describe_key], would find the key. *)
Theorem arn_references_by_operation
    (B : Backend.t) (region prefix key_id : string) (s : Backend.St B) :
  let key_ref := prefix +:+ ":key/" +:+ key_id in
  Py.contains "arn" prefix = true ->
  valid_key_id key_id = true ->
  (forall p c, exists j,
     KmsResponse.encrypt B key_ref p c s = (Return (Body j), s))
  /\ (forall key_spec n c, exists j s',
        KmsResponse.generate_data_key B key_ref key_spec n c s
        = (Return (Body j), s'))
  /\ (forall key,
        Backend.describe_key B key_ref s = Some key ->
        KmsResponse.describe_key B key_ref s
        = (Return (Body (Backend.to_dict B key)), s))
  /\ KmsResponse.list_key_policies B region key_ref s
     = (Raise invalid_key_id_error, s)
  /\ KmsResponse.enable_key_rotation B region key_ref s
     = (Raise invalid_key_id_error, s)
  /\ KmsResponse.disable_key_rotation B region key_ref s
     = (Raise invalid_key_id_error, s)
  /\ KmsResponse.get_key_rotation_status B region key_ref s
     = (Raise invalid_key_id_error, s)
  /\ (forall policy_name policy,
        KmsResponse.put_key_policy B region key_ref policy_name policy s
        = (Raise invalid_key_id_error, s))
  /\ (forall policy_name,
        KmsResponse.get_key_policy B region key_ref policy_name s
        = (Raise invalid_key_id_error, s)).
Proof.
  intros key_ref Harn Hv.
  assert (_parse_key_id key_ref = key_id) as Hparse
    by (by apply parse_key_id_arn).
  assert (valid_key_id key_ref = false) as Hraw
    by (apply arn_reference_not_valid; by apply contains_app).
  repeat split; intros; run_handler;
    rewrite ?Hparse, ?Hv, ?Hraw; simpl; try done.
  - destruct (Backend.encrypt B key_ref p c s). eauto.
  - destruct (Backend.generate_data_key B key_ref key_spec n c s)
      as [[[? ?] ?] ?]. eauto.
  - match goal with H : _ = Some _ |- _ => by rewrite H end.
Qed.

Lemma arn_references_by_operation_witness :
  KmsResponse.describe_key Example.B (Models.arn Example.K) Example.s1
  = (Return (Body (Models.to_dict Example.K)), Example.s1)
  /\ KmsResponse.list_key_policies Example.B Example.region
       (Models.arn Example.K) Example.s1
     = (Raise invalid_key_id_error, Example.s1).
Proof.
  destruct (arn_references_by_operation Example.B Example.region
              "arn:aws:kms:us-east-1:012345678912" (Models.id Example.K)
              Example.s1) as (_ & _ & H3 & H4 & _).
  - reflexivity.
  - vm_compute. reflexivity.
  - split; [apply H3; vm_compute; reflexivity | exact H4].
Defined.
